(** * EmailGenie (app2.py): a shallow embedding of the Streamlit script

    The script is one top-to-bottom program that Streamlit re-executes on
    every user interaction.  Between two executions only
    [st.session_state] and the file [user_profiles.csv] survive.  One
    execution is modelled as a computation over a [World] holding these
    two stores and the log of what the execution showed and sent.

    The two remote services (the completion endpoint and the e-mail
    provider) are oracles of the environment; widget values are the
    inputs of an execution. *)

From Stdlib Require Import String Ascii List ZArith Bool Lia.
Import ListNotations.
Local Open Scope list_scope.
Local Open Scope string_scope.

Set Implicit Arguments.
Set Warnings "-register-all".

(** ** Python values *)

(** The values that travel through the script without being inspected
    beyond subscripting: JSON documents decoded by [response.json()], the
    object returned by [resend.Emails.send], message contents.  A float
    carries the literal it was decoded from. *)
Inductive pyval : Type :=
| PNone
| PBool (b : bool)
| PInt (z : Z)
| PFloat (literal : string)
| PStr (s : string)
| PList (items : list pyval)
| PDict (items : list (string * pyval)).

(** Exceptions that reach the top of the script uncaught. *)
Inductive exn : Type :=
| KeyError (key : string)
| IndexError
| TypeError
| JSONDecodeError
| EmptyDataError
| ParserError
| AttributeError.

(** [d[k]] for a dict decoded from JSON (keys are strings and unique). *)
Fixpoint dict_get (items : list (string * pyval)) (k : string) : option pyval :=
  match items with
  | [] => None
  | (k', v) :: rest => if String.eqb k' k then Some v else dict_get rest k
  end.

(** ['id' in d]. *)
Definition dict_mem (items : list (string * pyval)) (k : string) : bool :=
  match dict_get items k with Some _ => true | None => false end.

(** [v[k]] with a string key [k]. *)
Definition getitem_str (v : pyval) (k : string) : exn + pyval :=
  match v with
  | PDict items =>
      match dict_get items k with
      | Some x => inr x
      | None => inl (KeyError k)
      end
  | _ => inl TypeError
  end.

(** [v is None] *)
Definition is_None (v : pyval) : bool :=
  match v with PNone => true | _ => false end.

(** [isinstance(v, dict) and 'id' in v] *)
Definition has_id (v : pyval) : bool :=
  match v with
  | PDict items => dict_mem items "id"
  | _ => false
  end.

(** [v[0]]. *)
Definition getitem_0 (v : pyval) : exn + pyval :=
  match v with
  | PList [] => inl IndexError
  | PList (x :: _) => inr x
  | PStr EmptyString => inl IndexError
  | PStr (String c _) => inr (PStr (String c EmptyString))
  | PDict _ => inl (KeyError "0")
  | _ => inl TypeError
  end.

(** ** Conversation state *)

(** A message is a dict with the two keys [role] and [content]. *)
Record Message : Type := { role : string; content : pyval }.

(** Lines 49-52 and 193-196: the one system message. *)
Definition system_prompt : string :=
  "You are an AI assistant generating personalized emails. " ++
  "Use the provided information to create customized email content.".

Definition system_message : Message :=
  {| role := "system"; content := PStr system_prompt |}.

(** ** Profile table cells *)

(** Column types [pd.read_csv] infers when the whole column converts. *)
Inductive numeric_dtype : Type := Int64 | Float64.

(** A cell of the loaded profile table.  A numeric cell keeps the token it
    was converted from; its value is that token read at the column's
    dtype. *)
Inductive scalar : Type :=
| NaN
| Str (s : string)
| Num (d : numeric_dtype) (token : string)
| Bool (b : bool).

(** [pd.DataFrame]: column labels and the rows in store order. *)
Record DataFrame : Type := { columns : list string; rows : list (list scalar) }.

Definition profile_columns : list string :=
  ["Name"; "Industry"; "Company"; "Target Audience"].

(** The dict built at line 124. *)
Record Profile : Type := {
  Name : string;
  Industry : string;
  Company : string;
  Target_Audience : string
}.

(** A profile dict as [st.session_state.profile] holds it: [{}], a row's
    [to_dict()], or the dict of line 124. *)
Definition profile_dict : Type := list (string * scalar).

Definition dict_of_profile (p : Profile) : profile_dict :=
  [("Name", Str (Name p)); ("Industry", Str (Industry p));
   ("Company", Str (Company p)); ("Target Audience", Str (Target_Audience p))].

(** ** Session state, configuration, inputs *)

Record Session : Type := {
  messages : list Message;
  email_generated : bool;
  profile : profile_dict
}.

(** Lines 48-55 and 192-199. *)
Definition initial_session : Session :=
  {| messages := [system_message]; email_generated := false; profile := [] |}.

(** What lines 7-29 read from the installation and the environment. *)
Record Config : Type := {
  DOTENV_INSTALLED : bool;
  RESEND_INSTALLED : bool;
  GROQ_API_KEY : option string;
  RESEND_API_KEY : option string
}.

(** Truth value of [os.getenv(...)]: [None] and the empty string are false. *)
Definition truthy (k : option string) : bool :=
  match k with
  | Some (String _ _) => true
  | _ => false
  end.

Inductive ProfileChoice : Type := LoadExistingProfile | CreateNewProfile.
Inductive Tone : Type := Formal | Neutral | Friendly.
Inductive Length : Type := Short | Medium | Long.

Definition tone_str (t : Tone) : string :=
  match t with Formal => "Formal" | Neutral => "Neutral" | Friendly => "Friendly" end.

Definition length_str (l : Length) : string :=
  match l with Short => "Short" | Medium => "Medium" | Long => "Long" end.

(** The widget values of one execution of the script. *)
Record Inputs : Type := {
  profile_choice : ProfileChoice;
  selected_index : nat;
  name : string;
  industry : string;
  company : string;
  audience : string;
  save_profile_clicked : bool;
  recipient_name : string;
  recipient_email : string;
  email_purpose : string;
  tone : Tone;
  length : Length;
  key_points : string;
  generate_clicked : bool;
  email_subject : string;
  send_clicked : bool;
  start_over_clicked : bool
}.

(** ** The two remote services *)

(** [requests.post] result: status and decoded body ([None] when the body
    is not JSON, in which case [response.json()] raises). *)
Record Response : Type := { status_code : Z; json : option pyval }.

(** Line 74-79. *)
Record SendParams : Type := {
  from : string;
  to : list string;
  subject : string;
  html : pyval
}.

Inductive SendResult : Type :=
| Returned (email : pyval)
| Raising (description : string).

Record Services : Type := {
  completion : list Message -> Response;
  resend_send : SendParams -> SendResult
}.

(** ** What an execution shows and sends *)

Inductive ErrorText : Type :=
| DotenvNotInstalled                (* line 12 *)
| ResendNotInstalled                (* line 19 *)
| GroqKeyNotSet                     (* line 33 *)
| ApiRequestFailed (status : Z)     (* line 64 *)
| EmailNotAvailable                 (* lines 70 and 180 *)
| FailedToSend (description : string) (* line 83 *)
| EmailResultIsNone                 (* line 174 *)
| EmailResultWithoutId (received : pyval). (* line 178 *)

Inductive Event : Type :=
| UiError (e : ErrorText)
| UiInfoSendingDisabled             (* line 20 *)
| UiWarningResendKeyNotSet          (* line 37 *)
| UiWarningNoProfiles               (* line 112 *)
| UiSuccessProfileSaved             (* line 127 *)
| UiSuccessEmailSent (id : pyval)   (* line 176 *)
| UiGeneratedEmail (text : pyval)   (* lines 160-161 *)
| HttpCompletion (model : string) (msgs : list Message)  (* line 60 *)
| HttpResendSend (params : SendParams).                  (* line 80 *)

Record World : Type := {
  session : option Session;      (* None: the keys are not set yet *)
  csv_file : option string;      (* None: user_profiles.csv does not exist *)
  log : list Event
}.

(** ** Control: a state monad with the script's ways of ending *)

Inductive outcome (A : Type) : Type :=
| Done (a : A)
| Stopped            (* st.stop() *)
| Rerun              (* st.rerun() *)
| Raised (e : exn).

Arguments Done {A} a.
Arguments Stopped {A}.
Arguments Rerun {A}.
Arguments Raised {A} e.

Definition M (A : Type) : Type := World -> outcome A * World.

Definition ret {A} (a : A) : M A := fun w => (Done a, w).

Definition bind {A B} (m : M A) (f : A -> M B) : M B :=
  fun w =>
    match m w with
    | (Done a, w') => f a w'
    | (Stopped, w') => (Stopped, w')
    | (Rerun, w') => (Rerun, w')
    | (Raised e, w') => (Raised e, w')
    end.

Notation "x <- m ;; k" := (bind m (fun x => k))
  (at level 61, m at next level, right associativity).
Notation "m ;;; k" := (bind m (fun _ => k))
  (at level 61, right associativity).

Definition st_stop {A} : M A := fun w => (Stopped, w).
Definition st_rerun {A} : M A := fun w => (Rerun, w).
Definition raise {A} (e : exn) : M A := fun w => (Raised e, w).

Definition lift {A} (r : exn + A) : M A :=
  match r with
  | inl e => raise e
  | inr a => ret a
  end.

Definition emit (e : Event) : M unit :=
  fun w => (Done tt, {| session := session w; csv_file := csv_file w;
                        log := (log w ++ [e])%list |}).

Definition when (b : bool) (m : M unit) : M unit := if b then m else ret tt.

(** ** Profile store: the file [user_profiles.csv] *)

Definition LF : ascii := ascii_of_nat 10.
Definition CR : ascii := ascii_of_nat 13.
Definition TAB : ascii := ascii_of_nat 9.
Definition SPACE : ascii := ascii_of_nat 32.
Definition COMMA : ascii := ascii_of_nat 44.
Definition QUOTE : ascii := ascii_of_nat 34.

Definition str1 (c : ascii) : string := String c EmptyString.

Fixpoint string_exists (p : ascii -> bool) (s : string) : bool :=
  match s with
  | EmptyString => false
  | String c rest => p c || string_exists p rest
  end.

(** *** Writing: [df.to_csv(..., mode='a', index=False, header=False)]

    One row of four string fields, written by the csv writer with its
    defaults (separator comma, quote character the double quote, minimal
    quoting, doubled quotes) and the line terminator of a POSIX host.  A field is quoted
    when it holds the separator, the quote character or a character of the
    line terminator. *)

Definition needs_quoting (field : string) : bool :=
  string_exists
    (fun c => Ascii.eqb c COMMA || Ascii.eqb c QUOTE || Ascii.eqb c LF) field.

Fixpoint double_quotes (field : string) : string :=
  match field with
  | EmptyString => EmptyString
  | String c rest =>
      if Ascii.eqb c QUOTE
      then String QUOTE (String QUOTE (double_quotes rest))
      else String c (double_quotes rest)
  end.

Definition csv_field (field : string) : string :=
  if needs_quoting field
  then str1 QUOTE ++ double_quotes field ++ str1 QUOTE
  else field.

Definition csv_line (p : Profile) : string :=
  csv_field (Name p) ++ str1 COMMA ++
  csv_field (Industry p) ++ str1 COMMA ++
  csv_field (Company p) ++ str1 COMMA ++
  csv_field (Target_Audience p) ++ str1 LF.

(** Lines 87-89.  Mode ['a'] creates the file when it is missing. *)
Definition save_profile (p : Profile) : M unit :=
  fun w =>
    let old := match csv_file w with Some text => text | None => "" end in
    (Done tt, {| session := session w;
                 csv_file := Some (old ++ csv_line p);
                 log := log w |}).

(** *** Reading: the tokenizer of [pd.read_csv]

    The reader's defaults: separator comma, quote character the double
    quote (doubled inside a quoted field), no escape character, no comments, lines ended by LF,
    CR or CR LF, blank lines skipped. *)

Inductive TState : Type :=
| START_RECORD
| START_FIELD
| IN_FIELD
| IN_QUOTED_FIELD
| QUOTE_IN_QUOTED_FIELD
| EAT_CRNL
| EAT_CRNL_NOP
| WHITESPACE_LINE.

Record Tokenizer : Type := {
  state : TState;
  field : string;               (* characters of the field being read *)
  line : list string;           (* fields of the line being read *)
  lines : list (list string)    (* finished lines, in file order *)
}.

Definition set_state (s : TState) (t : Tokenizer) : Tokenizer :=
  {| state := s; field := field t; line := line t; lines := lines t |}.

Definition push_char (c : ascii) (t : Tokenizer) : Tokenizer :=
  {| state := state t; field := field t ++ str1 c;
     line := line t; lines := lines t |}.

Definition end_field (t : Tokenizer) : Tokenizer :=
  {| state := state t; field := "";
     line := (line t ++ [field t])%list; lines := lines t |}.

Definition end_line (t : Tokenizer) : Tokenizer :=
  {| state := START_RECORD; field := "";
     line := []; lines := (lines t ++ [line t])%list |}.

Definition drop_field (t : Tokenizer) : Tokenizer :=
  {| state := state t; field := ""; line := line t; lines := lines t |}.

Definition is_blank (c : ascii) : bool := Ascii.eqb c SPACE || Ascii.eqb c TAB.

Definition step_START_FIELD (c : ascii) (t : Tokenizer) : Tokenizer :=
  if Ascii.eqb c LF then end_line (end_field t)
  else if Ascii.eqb c CR then set_state EAT_CRNL (end_field t)
  else if Ascii.eqb c QUOTE then set_state IN_QUOTED_FIELD t
  else if Ascii.eqb c COMMA then set_state START_FIELD (end_field t)
  else set_state IN_FIELD (push_char c t).

Definition step_IN_FIELD (c : ascii) (t : Tokenizer) : Tokenizer :=
  if Ascii.eqb c LF then end_line (end_field t)
  else if Ascii.eqb c CR then set_state EAT_CRNL (end_field t)
  else if Ascii.eqb c COMMA then set_state START_FIELD (end_field t)
  else push_char c t.

(** A line of blanks only is skipped like an empty one; the blanks wait in
    [field] until the line shows what it is. *)
Definition step_START_RECORD (c : ascii) (t : Tokenizer) : Tokenizer :=
  if Ascii.eqb c LF then t
  else if Ascii.eqb c CR then set_state EAT_CRNL_NOP t
  else if is_blank c then set_state WHITESPACE_LINE (push_char c t)
  else step_START_FIELD c t.

Definition tokenizer_step (t : Tokenizer) (c : ascii) : Tokenizer :=
  match state t with
  | START_RECORD => step_START_RECORD c t
  | START_FIELD => step_START_FIELD c t
  | IN_FIELD => step_IN_FIELD c t
  | IN_QUOTED_FIELD =>
      if Ascii.eqb c QUOTE then set_state QUOTE_IN_QUOTED_FIELD t
      else push_char c t
  | QUOTE_IN_QUOTED_FIELD =>
      if Ascii.eqb c QUOTE then set_state IN_QUOTED_FIELD (push_char c t)
      else if Ascii.eqb c COMMA then set_state START_FIELD (end_field t)
      else if Ascii.eqb c LF then end_line (end_field t)
      else if Ascii.eqb c CR then set_state EAT_CRNL (end_field t)
      else set_state IN_FIELD (push_char c t)
  | EAT_CRNL =>
      if Ascii.eqb c LF then end_line t
      else if Ascii.eqb c COMMA then set_state START_FIELD (end_field (end_line t))
      else step_START_RECORD c (end_line t)
  | EAT_CRNL_NOP =>
      if Ascii.eqb c LF || Ascii.eqb c COMMA then set_state START_RECORD t
      else step_START_RECORD c (set_state START_RECORD t)
  | WHITESPACE_LINE =>
      if Ascii.eqb c LF then set_state START_RECORD (drop_field t)
      else if Ascii.eqb c CR then set_state EAT_CRNL_NOP (drop_field t)
      else if is_blank c then push_char c t
      else step_IN_FIELD c (set_state IN_FIELD t)
  end.

Fixpoint tokenizer_run (t : Tokenizer) (text : string) : Tokenizer :=
  match text with
  | EmptyString => t
  | String c rest => tokenizer_run (tokenizer_step t c) rest
  end.

(** End of file: an open quoted field is an error, an unfinished line is
    finished. *)
Definition handle_eof (t : Tokenizer) : exn + list (list string) :=
  match state t with
  | START_RECORD | WHITESPACE_LINE | EAT_CRNL_NOP => inr (lines t)
  | IN_QUOTED_FIELD => inl ParserError
  | IN_FIELD | START_FIELD | QUOTE_IN_QUOTED_FIELD =>
      inr (lines (end_line (end_field t)))
  | EAT_CRNL => inr (lines (end_line t))
  end.

Definition tokenizer_init : Tokenizer :=
  {| state := START_RECORD; field := ""; line := []; lines := [] |}.

Definition tokenize (text : string) : exn + list (list string) :=
  handle_eof (tokenizer_run tokenizer_init text).

(** *** Reading: missing values and column types

    After tokenizing, [pd.read_csv] converts column by column.  A token of
    the default missing-value list becomes NaN whatever the column's type.
    For the rest the reader tries, in this order, int64 (only for a column
    without missing values), float64, bool, and keeps the tokens as
    strings when none fits the whole column. *)

Definition na_values : list string :=
  [""; "#N/A"; "#N/A N/A"; "#NA"; "-1.#IND"; "-1.#QNAN"; "-NaN"; "-nan";
   "1.#IND"; "1.#QNAN"; "<NA>"; "N/A"; "NA"; "NULL"; "NaN"; "None";
   "n/a"; "nan"; "null"].

Definition is_na (token : string) : bool :=
  existsb (String.eqb token) na_values.

(** The reader's number and boolean grammars, and equality of two numbers
    given by their tokens, belong to the library; the store is modelled
    for any choice of them. *)
Record Converters : Type := {
  is_int64 : string -> bool;
  is_float64 : string -> bool;
  as_bool : string -> option bool;
  num_eqb : numeric_dtype -> string -> string -> bool
}.

Fixpoint all_some {A} (l : list (option A)) : option (list A) :=
  match l with
  | [] => Some []
  | None :: _ => None
  | Some a :: rest =>
      match all_some rest with
      | Some r => Some (a :: r)
      | None => None
      end
  end.

Definition index_of (label : string) (labels : list string) : option nat :=
  (fix go (ls : list string) (i : nat) : option nat :=
     match ls with
     | [] => None
     | l :: rest => if String.eqb l label then Some i else go rest (S i)
     end) labels 0%nat.

Section ProfileStore.

Variable cv : Converters.

Definition int64_cell (token : string) : option scalar :=
  if is_na token then None
  else if is_int64 cv token then Some (Num Int64 token) else None.

Definition float64_cell (token : string) : option scalar :=
  if is_na token then Some NaN
  else if is_float64 cv token then Some (Num Float64 token) else None.

Definition bool_cell (token : string) : option scalar :=
  if is_na token then Some NaN
  else match as_bool cv token with
       | Some b => Some (Bool b)
       | None => None
       end.

Definition object_cell (token : string) : scalar :=
  if is_na token then NaN else Str token.

Definition convert_column (tokens : list string) : list scalar :=
  match all_some (map int64_cell tokens) with
  | Some cells => cells
  | None =>
      match all_some (map float64_cell tokens) with
      | Some cells => cells
      | None =>
          match all_some (map bool_cell tokens) with
          | Some cells => cells
          | None => map object_cell tokens
          end
      end
  end.

(** A line with fewer fields than names is filled up with missing
    values; a line with more is refused. *)
Definition pad (width : nat) (fields : list string) : list string :=
  (fields ++ repeat "" (width - List.length fields))%list.

Definition read_csv (text : string) (names : list string) : exn + DataFrame :=
  match tokenize text with
  | inl e => inl e
  | inr [] => inl EmptyDataError
  | inr ls =>
      let width := List.length names in
      if existsb (fun fields => (width <? List.length fields)%nat) ls
      then inl ParserError
      else
        let padded := map (pad width) ls in
        let cols :=
          map (fun i => convert_column (map (fun fields => nth i fields "") padded))
              (seq 0 width) in
        inr {| columns := names;
               rows := map (fun k => map (fun col => nth k col NaN) cols)
                           (seq 0 (List.length ls)) |}
  end.

(** Lines 91-95: only the missing file is caught. *)
Definition load_profiles : M DataFrame :=
  fun w =>
    match csv_file w with
    | None => (Done {| columns := profile_columns; rows := [] |}, w)
    | Some text =>
        match read_csv text profile_columns with
        | inl e => (Raised e, w)
        | inr df => (Done df, w)
        end
    end.

(** *** The table operations of lines 107-110 *)

(** [df.empty] *)
Definition df_empty (df : DataFrame) : bool :=
  match columns df, rows df with
  | [], _ | _, [] => true
  | _, _ => false
  end.

(** [df[label].tolist()] *)
Definition df_column (df : DataFrame) (label : string) : exn + list scalar :=
  match index_of label (columns df) with
  | Some i => inr (map (fun r => nth i r NaN) (rows df))
  | None => inl (KeyError label)
  end.

(** [a == b] on cells; NaN equals nothing, itself included. *)
Definition scalar_eqb (a b : scalar) : bool :=
  match a, b with
  | Str s, Str s' => String.eqb s s'
  | Num d t, Num d' t' =>
      match d, d' with
      | Int64, Int64 => num_eqb cv Int64 t t'
      | _, _ => num_eqb cv Float64 t t'
      end
  | Bool b, Bool b' => Bool.eqb b b'
  | _, _ => false
  end.

(** [df[df[label] == value]] *)
Definition df_where_eq (df : DataFrame) (label : string) (value : scalar)
  : exn + DataFrame :=
  match index_of label (columns df) with
  | Some i =>
      inr {| columns := columns df;
             rows := filter (fun r => scalar_eqb (nth i r NaN) value) (rows df) |}
  | None => inl (KeyError label)
  end.

(** [df.iloc[0].to_dict()] *)
Definition df_iloc0_to_dict (df : DataFrame) : exn + profile_dict :=
  match rows df with
  | [] => inl IndexError
  | r :: _ => inr (combine (columns df) r)
  end.

End ProfileStore.

(** ** The script *)

Definition nl : string := str1 LF.

(** Lines 141-153: the f-string, line by line. *)
Definition build_prompt (name company industry recipient_name email_purpose
                         tone length key_points audience : string) : string :=
  nl ++
  "    Generate a personalized email based on the following information:" ++ nl ++
  "    - Sender: " ++ name ++ " from " ++ company ++ " in the " ++ industry ++
  " industry" ++ nl ++
  "    - Recipient: " ++ recipient_name ++ nl ++
  "    - Purpose: " ++ email_purpose ++ nl ++
  "    - Tone: " ++ tone ++ nl ++
  "    - Length: " ++ length ++ nl ++
  "    - Key Points: " ++ key_points ++ nl ++
  "    - Target Audience: " ++ audience ++ nl ++
  nl ++
    "    Please create an email that addresses the recipient by n" ++
    "ame, clearly states the purpose," ++ nl ++
    "    maintains the specified tone and length, and incorporate" ++
    "s the key points provided. And do not include any AI or AI g" ++
    "enerated text like (Here is a personalized email that addres" ++
    "ses your needs ) nothing like that. and also do not include " ++
    "any placeholder text. and do not repeat the subject line in " ++
    "the email body." ++ nl ++
  "    ".

Definition get_session : M Session :=
  fun w =>
    match session w with
    | Some s => (Done s, w)
    | None => (Raised AttributeError, w)
    end.

Definition put_session (s : Session) : M unit :=
  fun w => (Done tt, {| session := Some s; csv_file := csv_file w; log := log w |}).

(** [st.session_state.messages.append(m)] *)
Definition append_message (m : Message) : M unit :=
  s <- get_session ;;
  put_session {| messages := (messages s ++ [m])%list;
                 email_generated := email_generated s;
                 profile := profile s |}.

(** [st.session_state.email_generated = b] *)
Definition set_email_generated (b : bool) : M unit :=
  s <- get_session ;;
  put_session {| messages := messages s; email_generated := b;
                 profile := profile s |}.

(** [st.session_state.profile = d] *)
Definition set_profile (d : profile_dict) : M unit :=
  s <- get_session ;;
  put_session {| messages := messages s;
                 email_generated := email_generated s;
                 profile := d |}.

(** [msgs[-1]["content"]] *)
Definition last_content (msgs : list Message) : exn + pyval :=
  match rev msgs with
  | [] => inl IndexError
  | m :: _ => inr (content m)
  end.

(** [st.selectbox(label, options)]: one of the options, the first one
    unless the user picked another. *)
Definition selectbox (options : list scalar) (index : nat) : scalar :=
  nth index options (hd NaN options).

Definition fixed_recipient : string := "spam.vanshjain@gmail.com".

Section Script.

Variable cv : Converters.
Variable cfg : Config.
Variable srv : Services.

(** Lines 6-44. *)
Definition startup : M unit :=
  when (negb (DOTENV_INSTALLED cfg)) (emit (UiError DotenvNotInstalled)) ;;;
  when (negb (RESEND_INSTALLED cfg))
       (emit (UiError ResendNotInstalled) ;;; emit UiInfoSendingDisabled) ;;;
  when (negb (DOTENV_INSTALLED cfg)) st_stop ;;;
  when (negb (truthy (GROQ_API_KEY cfg)))
       (emit (UiError GroqKeyNotSet) ;;; st_stop) ;;;
  when (RESEND_INSTALLED cfg && negb (truthy (RESEND_API_KEY cfg)))
       (emit UiWarningResendKeyNotSet).

(** Lines 47-55. *)
Definition init_session_state : M unit :=
  fun w =>
    match session w with
    | None => put_session initial_session w
    | Some _ => (Done tt, w)
    end.

(** Lines 58-65. *)
Definition get_llm_response (messages : list Message) : M pyval :=
  emit (HttpCompletion "llama3-8b-8192" messages) ;;;
  let response := completion srv messages in
  if (status_code response =? 200)%Z then
    match json response with
    | None => raise JSONDecodeError
    | Some body =>
        choices <- lift (getitem_str body "choices") ;;
        choice <- lift (getitem_0 choices) ;;
        message <- lift (getitem_str choice "message") ;;
        lift (getitem_str message "content")
    end
  else
    emit (UiError (ApiRequestFailed (status_code response))) ;;;
    st_stop.

(** Lines 68-84. *)
Definition send_email (subject : string) (body : pyval)
                      (recipient_email : string) : M pyval :=
  if negb (RESEND_INSTALLED cfg) || negb (truthy (RESEND_API_KEY cfg)) then
    emit (UiError EmailNotAvailable) ;;;
    ret PNone
  else
    let params := {| from := "onboarding@resend.dev";
                     to := [recipient_email];
                     subject := subject;
                     html := body |} in
    emit (HttpResendSend params) ;;;
    match resend_send srv params with
    | Returned email => ret email
    | Raising e =>
        emit (UiError (FailedToSend e)) ;;;
        ret PNone
    end.

(** Lines 103-116. *)
Definition profile_setup (profile_choice : ProfileChoice)
                         (selected_index : nat) : M unit :=
  profile_choice <-
    match profile_choice with
    | LoadExistingProfile =>
        profiles <- load_profiles cv ;;
        if negb (df_empty profiles) then
          profile_names <- lift (df_column profiles "Name") ;;
          let selected_profile := selectbox profile_names selected_index in
          matching <- lift (df_where_eq cv profiles "Name" selected_profile) ;;
          d <- lift (df_iloc0_to_dict matching) ;;
          set_profile d ;;;
          ret LoadExistingProfile
        else
          emit UiWarningNoProfiles ;;;
          ret CreateNewProfile
    | CreateNewProfile => ret CreateNewProfile
    end ;;
  match profile_choice with
  | CreateNewProfile => set_profile []
  | LoadExistingProfile => ret tt
  end.

(** Lines 123-127. *)
Definition save_profile_button (name industry company audience : string) : M unit :=
  let profile := {| Name := name; Industry := industry; Company := company;
                    Target_Audience := audience |} in
  save_profile profile ;;;
  set_profile (dict_of_profile profile) ;;;
  emit UiSuccessProfileSaved.

(** Lines 140-161. *)
Definition generate_email_button (prompt : string) : M unit :=
  append_message {| role := "user"; content := PStr prompt |} ;;;
  s <- get_session ;;
  response <- get_llm_response (messages s) ;;
  append_message {| role := "assistant"; content := response |} ;;;
  set_email_generated true ;;;
  emit (UiGeneratedEmail response).

(** Lines 168-180.  [recipient_email] arrives holding the text of the
    widget of line 132 and is assigned anew at line 170. *)
Definition send_email_button (email_subject recipient_email : string) : M unit :=
  if RESEND_INSTALLED cfg && truthy (RESEND_API_KEY cfg) then
    let recipient_email := fixed_recipient in
    s <- get_session ;;
    body <- lift (last_content (messages s)) ;;
    email_result <- send_email email_subject body recipient_email ;;
    if is_None email_result then
      emit (UiError EmailResultIsNone)
    else if has_id email_result then
      id <- lift (getitem_str email_result "id") ;;
      emit (UiSuccessEmailSent id)
    else
      emit (UiError (EmailResultWithoutId email_result))
  else emit (UiError EmailNotAvailable).

(** Lines 191-200. *)
Definition start_over_button : M unit :=
  put_session initial_session ;;;
  st_rerun.

(** One execution of the script, lines 1-200.  Widgets that only draw
    (titles, headers, the history expander of lines 183-188) change
    neither store and are left out. *)
Definition script (inp : Inputs) : M unit :=
  startup ;;;
  init_session_state ;;;
  profile_setup (profile_choice inp) (selected_index inp) ;;;
  let name := name inp in
  let industry := industry inp in
  let company := company inp in
  let audience := audience inp in
  when (save_profile_clicked inp)
       (save_profile_button name industry company audience) ;;;
  let recipient_name := recipient_name inp in
  let recipient_email := recipient_email inp in
  let email_purpose := email_purpose inp in
  let tone := tone_str (tone inp) in
  let length := length_str (length inp) in
  let key_points := key_points inp in
  when (generate_clicked inp)
       (generate_email_button
          (build_prompt name company industry recipient_name email_purpose
                        tone length key_points audience)) ;;;
  s <- get_session ;;
  when (email_generated s)
       (when (send_clicked inp)
             (send_email_button (email_subject inp) recipient_email)) ;;;
  when (start_over_clicked inp) start_over_button.

End Script.

(** * Properties *)

(** The world after an execution has shown or sent [events]. *)
Definition logged (w : World) (events : list Event) : World :=
  {| session := session w; csv_file := csv_file w;
     log := (log w ++ events)%list |}.

Definition with_session (w : World) (s : Session) : World :=
  {| session := Some s; csv_file := csv_file w; log := log w |}.

Lemma logged_nil w : logged w [] = w.
Proof. destruct w; unfold logged; simpl. now rewrite app_nil_r. Qed.

Lemma logged_logged w e1 e2 : logged (logged w e1) e2 = logged w (e1 ++ e2)%list.
Proof. unfold logged; simpl. now rewrite app_assoc. Qed.

Lemma emit_logged e w : emit e w = (Done tt, logged w [e]).
Proof. reflexivity. Qed.

(** ** Completion client *)

(** The body [{"choices":[{"message":{"content": text}}]}], decoded. *)
Definition completion_body (text : pyval) : pyval :=
  PDict [("choices", PList [PDict [("message", PDict [("content", text)])]])].

Lemma get_llm_response_200 srv msgs text w :
  completion srv msgs = {| status_code := 200; json := Some (completion_body text) |} ->
  get_llm_response srv msgs w
  = (Done text, logged w [HttpCompletion "llama3-8b-8192" msgs]).
Proof.
  intros H. unfold get_llm_response, bind. rewrite emit_logged, H. reflexivity.
Qed.

Lemma get_llm_response_not_200 srv msgs w :
  status_code (completion srv msgs) <> 200%Z ->
  get_llm_response srv msgs w
  = (Stopped, logged w [HttpCompletion "llama3-8b-8192" msgs;
                        UiError (ApiRequestFailed (status_code (completion srv msgs)))]).
Proof.
  intros H. unfold get_llm_response, bind. rewrite emit_logged.
  destruct (Z.eqb_spec (status_code (completion srv msgs)) 200) as [E|_];
    [contradiction|].
  rewrite emit_logged. unfold st_stop. now rewrite logged_logged.
Qed.

(** C7. With status 200 and the body
    [{"choices":[{"message":{"content":"Hello"}}]}], [get_llm_response]
    returns exactly the string [Hello], for every message list; the only
    effect is the request itself. *)
Theorem get_llm_response_200_hello srv msgs w :
  completion srv msgs
  = {| status_code := 200; json := Some (completion_body (PStr "Hello")) |} ->
  get_llm_response srv msgs w
  = (Done (PStr "Hello"), logged w [HttpCompletion "llama3-8b-8192" msgs]).
Proof. apply get_llm_response_200. Qed.

Definition hello_service : Services :=
  {| completion := fun _ =>
       {| status_code := 200; json := Some (completion_body (PStr "Hello")) |};
     resend_send := fun _ => Returned PNone |}.

Definition fresh_world : World :=
  {| session := None; csv_file := None; log := [] |}.

Lemma get_llm_response_200_hello_witness :
  get_llm_response hello_service [system_message] fresh_world
  = (Done (PStr "Hello"),
     logged fresh_world [HttpCompletion "llama3-8b-8192" [system_message]]).
Proof.
  apply (@get_llm_response_200_hello hello_service [system_message] fresh_world).
  reflexivity.
Defined.

(** ** Email client *)

Definition send_params (subject : string) (body : pyval) (recipient : string)
  : SendParams :=
  {| from := "onboarding@resend.dev"; to := [recipient];
     subject := subject; html := body |}.

Lemma send_email_configured cfg srv subject body recipient w :
  RESEND_INSTALLED cfg = true ->
  truthy (RESEND_API_KEY cfg) = true ->
  send_email cfg srv subject body recipient w
  = match resend_send srv (send_params subject body recipient) with
    | Returned email =>
        (Done email, logged w [HttpResendSend (send_params subject body recipient)])
    | Raising e =>
        (Done PNone, logged w [HttpResendSend (send_params subject body recipient);
                               UiError (FailedToSend e)])
    end.
Proof.
  intros Hi Hk. unfold send_email, send_params, bind, emit, ret, logged.
  rewrite Hi, Hk. simpl.
  destruct (resend_send srv _); simpl; rewrite <- ?app_assoc; reflexivity.
Qed.

(** C4. When the provider library is absent or its key is not set,
    [send_email] returns [None] after showing the configuration error, for
    every subject, body and recipient.  The resulting world is the old one
    with that error logged: no request is in it, and the provider is not
    consulted. *)
Theorem send_email_not_configured cfg srv subject body recipient w :
  RESEND_INSTALLED cfg = false \/ truthy (RESEND_API_KEY cfg) = false ->
  send_email cfg srv subject body recipient w
  = (Done PNone, logged w [UiError EmailNotAvailable]).
Proof.
  intros H. unfold send_email.
  assert (E : negb (RESEND_INSTALLED cfg) || negb (truthy (RESEND_API_KEY cfg)) = true).
  { destruct H as [H|H]; rewrite H; simpl; auto using orb_true_r. }
  rewrite E. reflexivity.
Qed.

Definition config_without_resend_key : Config :=
  {| DOTENV_INSTALLED := true; RESEND_INSTALLED := true;
     GROQ_API_KEY := Some "gsk"; RESEND_API_KEY := None |}.

Lemma send_email_not_configured_witness :
  send_email config_without_resend_key hello_service "Hi" (PStr "text")
             "someone@example.org" fresh_world
  = (Done PNone, logged fresh_world [UiError EmailNotAvailable]).
Proof.
  apply (@send_email_not_configured config_without_resend_key hello_service
           "Hi" (PStr "text") "someone@example.org" fresh_world).
  right. reflexivity.
Defined.

(** The message the Send Email handler shows for a provider result. *)
Definition send_report (email_result : pyval) : exn + Event :=
  if is_None email_result then inr (UiError EmailResultIsNone)
  else if has_id email_result then
    match getitem_str email_result "id" with
    | inr id => inr (UiSuccessEmailSent id)
    | inl e => inl e
    end
  else inr (UiError (EmailResultWithoutId email_result)).

Definition is_success (e : Event) : bool :=
  match e with UiSuccessEmailSent _ => true | _ => false end.

Lemma send_email_button_returned cfg srv email_subject recipient_email w s body email :
  RESEND_INSTALLED cfg = true ->
  truthy (RESEND_API_KEY cfg) = true ->
  session w = Some s ->
  last_content (messages s) = inr body ->
  resend_send srv (send_params email_subject body fixed_recipient) = Returned email ->
  send_email_button cfg srv email_subject recipient_email w
  = match send_report email with
    | inr report =>
        (Done tt, logged w [HttpResendSend (send_params email_subject body fixed_recipient);
                            report])
    | inl e =>
        (Raised e, logged w [HttpResendSend (send_params email_subject body fixed_recipient)])
    end.
Proof.
  intros Hi Hk Hs Hb Hr. unfold send_email_button. rewrite Hi, Hk. simpl.
  unfold bind at 1. unfold get_session. rewrite Hs.
  unfold bind at 1. rewrite Hb. simpl.
  unfold bind at 1. rewrite send_email_configured by assumption. rewrite Hr.
  unfold send_report.
  destruct (is_None email); [now rewrite emit_logged, logged_logged|].
  destruct (has_id email); [|now rewrite emit_logged, logged_logged].
  unfold bind. destruct (getitem_str email "id"); simpl; [reflexivity|].
  now rewrite emit_logged, logged_logged.
Qed.

(** C5. When the provider call returns without raising and the result
    has no field [id] (it is not a dict, or a dict without that key), the
    Send Email handler reports an error and no success: after the request
    the log holds exactly one more entry, an error message. *)
Theorem send_without_id_is_failure cfg srv email_subject recipient_email w s body email :
  RESEND_INSTALLED cfg = true ->
  truthy (RESEND_API_KEY cfg) = true ->
  session w = Some s ->
  last_content (messages s) = inr body ->
  resend_send srv (send_params email_subject body fixed_recipient) = Returned email ->
  has_id email = false ->
  exists e,
    send_email_button cfg srv email_subject recipient_email w
    = (Done tt, logged w [HttpResendSend (send_params email_subject body fixed_recipient);
                          UiError e])
    /\ e = (if is_None email then EmailResultIsNone else EmailResultWithoutId email).
Proof.
  intros Hi Hk Hs Hb Hr Hid.
  rewrite (@send_email_button_returned cfg srv email_subject recipient_email
             w s body email Hi Hk Hs Hb Hr).
  unfold send_report. rewrite Hid.
  destruct (is_None email); eexists; split; reflexivity.
Qed.

Definition config_with_resend : Config :=
  {| DOTENV_INSTALLED := true; RESEND_INSTALLED := true;
     GROQ_API_KEY := Some "gsk"; RESEND_API_KEY := Some "re" |}.

(** A provider answering with a body that has a status but no [id]. *)
Definition service_without_id : Services :=
  {| completion := fun _ => {| status_code := 500; json := None |};
     resend_send := fun _ => Returned (PDict [("status", PStr "queued")]) |}.

Definition generated_session : Session :=
  {| messages := [system_message;
                  {| role := "user"; content := PStr "write it" |};
                  {| role := "assistant"; content := PStr "Dear Ada" |}];
     email_generated := true;
     profile := [] |}.

Definition generated_world : World :=
  {| session := Some generated_session; csv_file := None; log := [] |}.

Lemma send_without_id_is_failure_witness :
  exists e,
    send_email_button config_with_resend service_without_id "Offer" "ada@example.org"
                      generated_world
    = (Done tt,
       logged generated_world
         [HttpResendSend (send_params "Offer" (PStr "Dear Ada") fixed_recipient);
          UiError e])
    /\ e = EmailResultWithoutId (PDict [("status", PStr "queued")]).
Proof.
  apply (@send_without_id_is_failure config_with_resend service_without_id
           "Offer" "ada@example.org" generated_world generated_session
           (PStr "Dear Ada") (PDict [("status", PStr "queued")]));
    reflexivity.
Defined.

(** ** Generate Email *)

Definition user_message (prompt : string) : Message :=
  {| role := "user"; content := PStr prompt |}.

Definition with_user_message (s : Session) (prompt : string) : Session :=
  {| messages := (messages s ++ [user_message prompt])%list;
     email_generated := email_generated s;
     profile := profile s |}.

Lemma generate_email_button_not_200 srv prompt w s :
  session w = Some s ->
  status_code (completion srv (messages (with_user_message s prompt))) <> 200%Z ->
  generate_email_button srv prompt w
  = (Stopped,
     logged (with_session w (with_user_message s prompt))
       [HttpCompletion "llama3-8b-8192" (messages (with_user_message s prompt));
        UiError (ApiRequestFailed
                   (status_code (completion srv (messages (with_user_message s prompt)))))]).
Proof.
  intros Hs Hc. unfold generate_email_button.
  unfold bind at 1. unfold append_message, bind at 1, get_session. rewrite Hs.
  unfold put_session. cbv beta iota. fold (user_message prompt).
  fold (with_user_message s prompt). fold (with_session w (with_user_message s prompt)).
  unfold bind at 1. simpl session. cbv beta iota.
  unfold bind at 1. rewrite get_llm_response_not_200 by assumption.
  reflexivity.
Qed.

Definition failing_service : Services :=
  {| completion := fun _ => {| status_code := 500; json := None |};
     resend_send := fun _ => Returned PNone |}.

Definition started_world : World :=
  {| session := Some initial_session; csv_file := None; log := [] |}.

(** C1, as stated, fails: after a 500 answer the action has stopped, yet
    the conversation holds the user message that line 155 appended before
    the request. *)
Lemma generate_500_changes_conversation :
  let after := generate_email_button failing_service "Write to Bob" started_world in
  fst after = Stopped
  /\ option_map messages (session (snd after))
     = Some [system_message; user_message "Write to Bob"]
  /\ option_map messages (session (snd after))
     <> option_map messages (session started_world).
Proof. cbv zeta. split; [reflexivity|]. split; [reflexivity|]. discriminate. Qed.

(** C1, amended.  On a status other than 200 the Generate Email action
    stops the execution after showing the error.  No assistant message is
    appended and the generated-flag, the profile and the profile file stay
    as they were; the user message built from the form has been appended
    to the conversation and stays there. *)
Theorem generate_failure_keeps_user_message srv prompt w s :
  session w = Some s ->
  status_code (completion srv (messages s ++ [user_message prompt])%list) <> 200%Z ->
  exists w',
    generate_email_button srv prompt w = (Stopped, w')
    /\ session w'
       = Some {| messages := (messages s ++ [user_message prompt])%list;
                 email_generated := email_generated s;
                 profile := profile s |}
    /\ csv_file w' = csv_file w
    /\ log w'
       = (log w ++
          [HttpCompletion "llama3-8b-8192" (messages s ++ [user_message prompt]);
           UiError (ApiRequestFailed
                      (status_code
                         (completion srv (messages s ++ [user_message prompt]))))])%list.
Proof.
  intros Hs Hc. eexists. split.
  - apply generate_email_button_not_200; eassumption.
  - repeat split.
Qed.

Lemma generate_failure_keeps_user_message_witness :
  exists w',
    generate_email_button failing_service "Write to Bob" started_world = (Stopped, w')
    /\ session w'
       = Some {| messages := [system_message; user_message "Write to Bob"];
                 email_generated := false;
                 profile := [] |}
    /\ csv_file w' = None
    /\ log w'
       = [HttpCompletion "llama3-8b-8192" [system_message; user_message "Write to Bob"];
          UiError (ApiRequestFailed 500)].
Proof.
  apply (@generate_failure_keeps_user_message failing_service "Write to Bob"
           started_world initial_session).
  - reflexivity.
  - simpl. lia.
Defined.

(** ** Start Over *)

(** C9. From every state, the Start Over action leaves the conversation
    with exactly one message, the system message with the fixed prompt,
    and the generated-flag false (the profile is emptied as well), then
    asks for a rerun. *)
Theorem start_over_resets w :
  exists w',
    start_over_button w = (Rerun, w')
    /\ option_map messages (session w')
       = Some [{| role := "system"; content := PStr system_prompt |}]
    /\ option_map email_generated (session w') = Some false
    /\ option_map profile (session w') = Some []
    /\ csv_file w' = csv_file w
    /\ log w' = log w.
Proof. eexists. split; [reflexivity|]. repeat split. Qed.

(** ** Profile store *)

(** Converters under which no token is a number or a boolean: every
    column is a column of text.  They serve to run the store on concrete
    files. *)
Definition text_only : Converters :=
  {| is_int64 := fun _ => false;
     is_float64 := fun _ => false;
     as_bool := fun _ => None;
     num_eqb := fun _ => String.eqb |}.

(** C6. Without a profile file [load_profiles] returns, without raising,
    the table with the four columns Name, Industry, Company, Target
    Audience and no row. *)
Theorem load_profiles_missing_file cv w :
  csv_file w = None ->
  load_profiles cv w
  = (Done {| columns := ["Name"; "Industry"; "Company"; "Target Audience"];
             rows := [] |}, w).
Proof. intros H. unfold load_profiles. now rewrite H. Qed.

Lemma load_profiles_missing_file_witness :
  load_profiles text_only fresh_world
  = (Done {| columns := ["Name"; "Industry"; "Company"; "Target Audience"];
             rows := [] |}, fresh_world).
Proof.
  apply (@load_profiles_missing_file text_only fresh_world). reflexivity.
Defined.


(** A profile whose optional Company field was left empty. *)
Definition profile_without_company : Profile :=
  {| Name := "Ada"; Industry := "Retail"; Company := ""; Target_Audience := "Buyers" |}.

(** C2 at a profile with an empty field.  Saved into a new store, the
    profile is written as the line [Ada,Retail,,Buyers]; loading then
    succeeds, and the Company cell of the last row is NaN, not the empty
    string that was saved.  This holds whatever the reader's number and
    boolean grammars are. *)
Theorem save_then_load_empty_field cv :
  let w := snd (save_profile profile_without_company fresh_world) in
  csv_file w = Some ("Ada,Retail,,Buyers" ++ nl)
  /\ exists df,
       load_profiles cv w = (Done df, w)
       /\ nth 2 (last (rows df) []) (Str "") = NaN
       /\ nth 2 (last (rows df) []) (Str "")
          <> Str (Company profile_without_company).
Proof.
  cbv zeta. split; [reflexivity|].
  unfold load_profiles, read_csv. simpl csv_file.
  change (tokenize (csv_line profile_without_company))
    with (@inr exn _ [["Ada"; "Retail"; ""; "Buyers"]]).
  cbv beta iota. simpl existsb. cbv iota.
  eexists. split; [reflexivity|].
  simpl. unfold convert_column. simpl. split; [reflexivity|discriminate].
Qed.

(** *** Load Existing Profile *)

(** The Name cell of a row. *)
Definition name_of (r : list scalar) : scalar := nth 0 r NaN.






(** ** What one execution can do to the world

    A relation [R] between worlds that is reflexive, transitive and kept
    by each primitive change of the world is kept by a whole execution of
    the script, however the execution ends. *)

(** What the script may append to the conversation. *)
Definition chat_role (m : Message) : Prop :=
  role m = "user" \/ role m = "assistant".

(** What the script may send to the e-mail provider. *)
Definition pinned (e : Event) : Prop :=
  match e with
  | HttpResendSend params => to params = [fixed_recipient]
  | _ => True
  end.

Section Executions.

Variable R : World -> World -> Prop.

Definition keeps {A} (m : M A) : Prop := forall w, R w (snd (m w)).

Hypothesis R_refl : forall w, R w w.
Hypothesis R_trans : forall a b c, R a b -> R b c -> R a c.
Hypothesis R_emit : forall e, pinned e -> keeps (emit e).
Hypothesis R_append : forall m, chat_role m -> keeps (append_message m).
Hypothesis R_flag : forall b, keeps (set_email_generated b).
Hypothesis R_profile : forall d, keeps (set_profile d).
Hypothesis R_reset : keeps (put_session initial_session).
Hypothesis R_save : forall p, keeps (save_profile p).

Lemma keeps_same {A} (m : M A) : (forall w, snd (m w) = w) -> keeps m.
Proof. intros H w. rewrite H. apply R_refl. Qed.

Lemma keeps_ret {A} (a : A) : keeps (ret a).
Proof. now apply keeps_same. Qed.

Lemma keeps_stop {A} : keeps (@st_stop A).
Proof. now apply keeps_same. Qed.

Lemma keeps_rerun {A} : keeps (@st_rerun A).
Proof. now apply keeps_same. Qed.

Lemma keeps_raise {A} e : keeps (@raise A e).
Proof. now apply keeps_same. Qed.

Lemma keeps_lift {A} (r : exn + A) : keeps (lift r).
Proof. destruct r; now apply keeps_same. Qed.

Lemma keeps_get_session : keeps get_session.
Proof. apply keeps_same. intros w. unfold get_session. now destruct (session w). Qed.

Lemma keeps_load_profiles cv : keeps (load_profiles cv).
Proof.
  apply keeps_same. intros w. unfold load_profiles.
  destruct (csv_file w); [|reflexivity]. now destruct (read_csv _ _ _).
Qed.

Lemma keeps_bind {A B} (m : M A) (f : A -> M B) :
  keeps m -> (forall a, keeps (f a)) -> keeps (bind m f).
Proof.
  intros Hm Hf w. unfold bind. specialize (Hm w).
  destruct (m w) as [[a| | |e] w']; simpl in *; try assumption.
  eapply R_trans; [eassumption|]. apply Hf.
Qed.

Lemma keeps_when (b : bool) (m : M unit) : keeps m -> keeps (when b m).
Proof. intros H. destruct b; [assumption|apply keeps_ret]. Qed.

Ltac keeps_tac :=
  repeat first
    [ apply keeps_ret | apply keeps_stop | apply keeps_rerun
    | apply keeps_raise | apply keeps_lift | apply keeps_get_session
    | apply keeps_load_profiles
    | apply R_flag | apply R_profile | apply R_reset | apply R_save
    | apply R_emit; exact I
    | apply R_append; unfold chat_role; simpl; tauto
    | match goal with
      | |- keeps (when _ _) => apply keeps_when
      | |- keeps (bind _ _) => apply keeps_bind; [|intros ?]
      end ].

Lemma keeps_startup cfg : keeps (startup cfg).
Proof. unfold startup. keeps_tac. Qed.

Lemma keeps_init_session_state : keeps init_session_state.
Proof.
  intros w. unfold init_session_state.
  destruct (session w); [apply R_refl|apply R_reset].
Qed.

Lemma keeps_get_llm_response srv msgs : keeps (get_llm_response srv msgs).
Proof.
  unfold get_llm_response. keeps_tac.
  destruct (status_code (completion srv msgs) =? 200)%Z; [|keeps_tac].
  destruct (json (completion srv msgs)); keeps_tac.
Qed.

Lemma keeps_send_email cfg srv subject body :
  keeps (send_email cfg srv subject body fixed_recipient).
Proof.
  unfold send_email.
  destruct (negb (RESEND_INSTALLED cfg) || negb (truthy (RESEND_API_KEY cfg)));
    keeps_tac.
  - apply R_emit. reflexivity.
  - destruct (resend_send srv _); keeps_tac.
Qed.

Lemma keeps_profile_setup cv choice selected_index :
  keeps (profile_setup cv choice selected_index).
Proof.
  unfold profile_setup. apply keeps_bind.
  - destruct choice; keeps_tac.
    match goal with |- keeps (if ?b then _ else _) => destruct b end; keeps_tac.
  - intros []; keeps_tac.
Qed.

Lemma keeps_save_profile_button name industry company audience :
  keeps (save_profile_button name industry company audience).
Proof. unfold save_profile_button. keeps_tac. Qed.

Lemma keeps_generate_email_button srv prompt :
  keeps (generate_email_button srv prompt).
Proof.
  unfold generate_email_button. keeps_tac. apply keeps_get_llm_response.
Qed.

Lemma keeps_send_email_button cfg srv email_subject recipient_email :
  keeps (send_email_button cfg srv email_subject recipient_email).
Proof.
  unfold send_email_button.
  destruct (RESEND_INSTALLED cfg && truthy (RESEND_API_KEY cfg)); keeps_tac.
  - apply keeps_send_email.
  - match goal with |- keeps (if ?b then _ else _) => destruct b end; keeps_tac.
    match goal with |- keeps (if ?b then _ else _) => destruct b end; keeps_tac.
Qed.

Lemma keeps_start_over_button : keeps start_over_button.
Proof. unfold start_over_button. keeps_tac. Qed.

Lemma keeps_script cv cfg srv inp : keeps (script cv cfg srv inp).
Proof.
  unfold script.
  apply keeps_bind; [apply keeps_startup|intros _].
  apply keeps_bind; [apply keeps_init_session_state|intros _].
  apply keeps_bind; [apply keeps_profile_setup|intros _].
  apply keeps_bind;
    [apply keeps_when, keeps_save_profile_button|intros _].
  apply keeps_bind;
    [apply keeps_when, keeps_generate_email_button|intros _].
  apply keeps_bind; [apply keeps_get_session|intros s].
  apply keeps_bind;
    [apply keeps_when, keeps_when, keeps_send_email_button|intros _].
  apply keeps_when, keeps_start_over_button.
Qed.

End Executions.

(** ** Send Email: the recipient *)

(** The same form with another text in the recipient field. *)
Definition with_recipient_email (inp : Inputs) (address : string) : Inputs :=
  {| profile_choice := profile_choice inp;
     selected_index := selected_index inp;
     name := name inp;
     industry := industry inp;
     company := company inp;
     audience := audience inp;
     save_profile_clicked := save_profile_clicked inp;
     recipient_name := recipient_name inp;
     recipient_email := address;
     email_purpose := email_purpose inp;
     tone := tone inp;
     length := length inp;
     key_points := key_points inp;
     generate_clicked := generate_clicked inp;
     email_subject := email_subject inp;
     send_clicked := send_clicked inp;
     start_over_clicked := start_over_clicked inp |}.

(** The log grew by events that are all [pinned]. *)
Definition sends_pinned (w w' : World) : Prop :=
  exists events, log w' = (log w ++ events)%list /\ Forall pinned events.

Lemma sends_pinned_refl w : sends_pinned w w.
Proof. exists []. split; [now rewrite app_nil_r|constructor]. Qed.

Lemma sends_pinned_trans a b c :
  sends_pinned a b -> sends_pinned b c -> sends_pinned a c.
Proof.
  intros [e1 [H1 F1]] [e2 [H2 F2]]. exists (e1 ++ e2)%list. split.
  - now rewrite H2, H1, app_assoc.
  - apply Forall_app. now split.
Qed.

Lemma sends_pinned_same_log w w' : log w' = log w -> sends_pinned w w'.
Proof. intros H. exists []. split; [now rewrite app_nil_r|constructor]. Qed.

Lemma session_update_log (f : Session -> Session) w :
  log (snd ((s <- get_session ;; put_session (f s)) w)) = log w.
Proof. unfold bind, get_session, put_session. now destruct (session w). Qed.

Lemma script_sends_pinned cv cfg srv inp w :
  sends_pinned w (snd (script cv cfg srv inp w)).
Proof.
  apply (keeps_script (R := sends_pinned)).
  - apply sends_pinned_refl.
  - apply sends_pinned_trans.
  - intros e He w0. exists [e]. split; [reflexivity|]. now constructor.
  - intros m _ w0. apply sends_pinned_same_log.
    apply (session_update_log
             (fun s => {| messages := (messages s ++ [m])%list;
                          email_generated := email_generated s;
                          profile := profile s |})).
  - intros b w0. apply sends_pinned_same_log.
    apply (session_update_log
             (fun s => {| messages := messages s; email_generated := b;
                          profile := profile s |})).
  - intros d w0. apply sends_pinned_same_log.
    apply (session_update_log
             (fun s => {| messages := messages s;
                          email_generated := email_generated s;
                          profile := d |})).
  - intros w0. now apply sends_pinned_same_log.
  - intros p w0. now apply sends_pinned_same_log.
Qed.

(** C3. Whatever the user typed into the recipient field, an execution of
    the script hands the e-mail provider only requests addressed to the one
    mailbox [spam.vanshjain@gmail.com]; and two executions that differ only
    in that field end alike, with the same world and the same log, hence
    the same requests. *)
Theorem send_recipient_is_pinned cv cfg srv inp w address :
  script cv cfg srv (with_recipient_email inp address) w = script cv cfg srv inp w
  /\ exists events,
       log (snd (script cv cfg srv inp w)) = (log w ++ events)%list
       /\ Forall (fun e => match e with
                           | HttpResendSend params =>
                               to params = ["spam.vanshjain@gmail.com"]
                           | _ => True
                           end) events.
Proof.
  split.
  - reflexivity.
  - apply script_sends_pinned.
Qed.

(** ** The conversation invariant *)

(** One system message at the head, user and assistant messages after it. *)
Definition conversation_ok (msgs : list Message) : Prop :=
  exists rest, msgs = system_message :: rest /\ Forall chat_role rest.

Definition session_ok (w : World) : Prop :=
  forall s, session w = Some s -> conversation_ok (messages s).

Definition keeps_session_ok (w w' : World) : Prop :=
  session_ok w -> session_ok w'.

Lemma conversation_ok_app msgs m :
  conversation_ok msgs -> chat_role m -> conversation_ok (msgs ++ [m]).
Proof.
  intros [rest [-> Hrest]] Hm. exists (rest ++ [m])%list. split; [reflexivity|].
  apply Forall_app. split; [assumption|]. now constructor.
Qed.

Lemma session_update_ok (f : Session -> Session) w :
  (forall s, conversation_ok (messages s) -> conversation_ok (messages (f s))) ->
  keeps_session_ok w (snd ((s <- get_session ;; put_session (f s)) w)).
Proof.
  intros Hf Hw. unfold bind, get_session, put_session.
  destruct (session w) as [s|] eqn:E; simpl; [|assumption].
  intros s' Hs'. simpl in Hs'. injection Hs' as <-. apply Hf, Hw, E.
Qed.

Lemma script_keeps_session_ok cv cfg srv inp w :
  session_ok w -> session_ok (snd (script cv cfg srv inp w)).
Proof.
  apply (keeps_script (R := keeps_session_ok)).
  - intros w0 H. exact H.
  - intros a b c Hab Hbc H. apply Hbc, Hab, H.
  - intros e _ w0 H. exact H.
  - intros m Hm w0.
    apply (session_update_ok
             (fun s => {| messages := (messages s ++ [m])%list;
                          email_generated := email_generated s;
                          profile := profile s |})).
    intros s Hs. simpl. now apply conversation_ok_app.
  - intros b w0.
    apply (session_update_ok
             (fun s => {| messages := messages s; email_generated := b;
                          profile := profile s |})).
    intros s Hs. exact Hs.
  - intros d w0.
    apply (session_update_ok
             (fun s => {| messages := messages s;
                          email_generated := email_generated s;
                          profile := d |})).
    intros s Hs. exact Hs.
  - intros w0 _ s Hs. simpl in Hs. injection Hs as <-.
    exists []. split; [reflexivity|constructor].
  - intros p w0 H. exact H.
Qed.

(** The worlds a session can be in: it starts without the session keys,
    and every interaction executes the script once more, with whatever
    configuration, services and widget values. *)
Inductive reachable (cv : Converters) : World -> Prop :=
| reachable_start w : session w = None -> reachable cv w
| reachable_run cfg srv inp w :
    reachable cv w -> reachable cv (snd (script cv cfg srv inp w)).

Lemma chat_role_not_system m :
  chat_role m -> String.eqb (role m) "system" = false.
Proof. intros [H|H]; rewrite H; reflexivity. Qed.

Lemma no_system_in_rest rest :
  Forall chat_role rest ->
  filter (fun m => String.eqb (role m) "system") rest = [].
Proof.
  induction 1 as [|m rest Hm _ IH]; [reflexivity|].
  simpl. now rewrite (chat_role_not_system Hm).
Qed.

(** C8. In every reachable world that has a conversation, the
    conversation is the system message followed by user and assistant
    messages only; so it holds exactly one message of role system, at its
    head. *)
Theorem conversation_begins_with_system cv w s :
  reachable cv w ->
  session w = Some s ->
  exists rest,
    messages s = {| role := "system"; content := PStr system_prompt |} :: rest
    /\ Forall (fun m => role m = "user" \/ role m = "assistant") rest
    /\ List.length (filter (fun m => String.eqb (role m) "system") (messages s))
       = 1%nat.
Proof.
  intros Hreach. revert s.
  assert (Hok : session_ok w).
  { induction Hreach as [w H|cfg srv inp w _ IH].
    - intros s Hs. congruence.
    - now apply script_keeps_session_ok. }
  intros s Hs. destruct (Hok s Hs) as [rest [Hm Hrest]].
  exists rest. repeat split; [exact Hm|exact Hrest|].
  rewrite Hm. simpl. now rewrite (no_system_in_rest Hrest).
Qed.

(** A first interaction: the form filled in and Generate Email pressed. *)
Definition generate_inputs : Inputs :=
  {| profile_choice := CreateNewProfile;
     selected_index := 0;
     name := "Ada";
     industry := "Retail";
     company := "Shop";
     audience := "Buyers";
     save_profile_clicked := false;
     recipient_name := "Bob";
     recipient_email := "bob@example.org";
     email_purpose := "Offer";
     tone := Neutral;
     length := Medium;
     key_points := "Discount";
     generate_clicked := true;
     email_subject := "Offer - Bob";
     send_clicked := false;
     start_over_clicked := false |}.

Definition after_first_generate : World :=
  snd (script text_only config_with_resend hello_service generate_inputs fresh_world).

Definition session_after_first_generate : Session :=
  match session after_first_generate with
  | Some s => s
  | None => initial_session
  end.

Lemma conversation_begins_with_system_witness :
  exists rest,
    messages session_after_first_generate
    = {| role := "system"; content := PStr system_prompt |} :: rest
    /\ Forall (fun m => role m = "user" \/ role m = "assistant") rest
    /\ List.length (filter (fun m => String.eqb (role m) "system")
                           (messages session_after_first_generate))
       = 1%nat.
Proof.
  apply (@conversation_begins_with_system text_only after_first_generate
           session_after_first_generate).
  - apply reachable_run, reachable_start. reflexivity.
  - vm_compute. reflexivity.
Defined.

Example after_first_generate_roles :
  map role (messages session_after_first_generate) = ["system"; "user"; "assistant"].
Proof. vm_compute. reflexivity. Qed.

(** ** Profile store: what a saved store loads as

    [save_profile] and [load_profiles] meet only through the text of the
    file.  The lemmas below follow the reader's tokenizer over the lines
    the writer produces, then the column conversion over the tokens. *)

(** A tokenizer given by its four components. *)
Definition tk (s : TState) (fld : string) (ln : list string) (lns : list (list string)) : Tokenizer :=
  {| state := s; field := fld; line := ln; lines := lns |}.

Lemma append_str1 a c b : (a ++ str1 c) ++ b = a ++ String c b.
Proof. induction a as [|x a IH]; simpl; [reflexivity|now rewrite IH]. Qed.

Lemma append_nil_r a : a ++ "" = a.
Proof. induction a as [|x a IH]; simpl; [reflexivity|now rewrite IH]. Qed.

Lemma append_assoc a b c : (a ++ b) ++ c = a ++ (b ++ c).
Proof. induction a as [|x a IH]; simpl; [reflexivity|now rewrite IH]. Qed.

Lemma tokenizer_run_app t a b :
  tokenizer_run t (a ++ b) = tokenizer_run (tokenizer_run t a) b.
Proof. revert t. induction a as [|c a IH]; intros t; simpl; [reflexivity|apply IH]. Qed.

Lemma run_double_quotes f : forall fld ln lns rest,
  tokenizer_run (tk IN_QUOTED_FIELD fld ln lns) (double_quotes f ++ rest)
  = tokenizer_run (tk IN_QUOTED_FIELD (fld ++ f) ln lns) rest.
Proof.
  induction f as [|c f IH]; intros fld ln lns rest.
  - simpl. now rewrite append_nil_r.
  - simpl double_quotes. destruct (Ascii.eqb c QUOTE) eqn:E.
    + apply Ascii.eqb_eq in E. subst c. simpl.
      unfold tokenizer_step at 2. simpl.
      unfold tokenizer_step at 1. simpl.
      unfold set_state, push_char. simpl. fold (tk IN_QUOTED_FIELD (fld ++ str1 QUOTE) ln lns).
      rewrite IH. now rewrite append_str1.
    + simpl. unfold tokenizer_step at 1. simpl. rewrite E.
      unfold push_char. simpl. fold (tk IN_QUOTED_FIELD (fld ++ str1 c) ln lns).
      rewrite IH. now rewrite append_str1.
Qed.

Definition special (c : ascii) : bool :=
  Ascii.eqb c COMMA || Ascii.eqb c QUOTE || Ascii.eqb c LF || Ascii.eqb c CR.

Definition plain (f : string) : Prop := string_exists special f = false.

Definition has_cr (f : string) : bool := string_exists (fun c => Ascii.eqb c CR) f.

Definition writable (f : string) : bool := needs_quoting f || negb (has_cr f).

Lemma writable_unquoted f :
  writable f = true -> needs_quoting f = false -> has_cr f = false.
Proof.
  unfold writable. intros H E. rewrite E in H. simpl in H.
  now apply negb_true_iff in H.
Qed.

Lemma plain_cons c f : plain (String c f) -> special c = false /\ plain f.
Proof. unfold plain. simpl. apply orb_false_elim. Qed.

Lemma special_false c :
  special c = false ->
  Ascii.eqb c COMMA = false /\ Ascii.eqb c QUOTE = false
  /\ Ascii.eqb c LF = false /\ Ascii.eqb c CR = false.
Proof.
  unfold special. intros H.
  apply orb_false_elim in H as [H Hcr].
  apply orb_false_elim in H as [H Hlf].
  apply orb_false_elim in H as [Hc Hq]. auto.
Qed.

Lemma unquoted_plain f : needs_quoting f = false -> has_cr f = false -> plain f.
Proof.
  unfold needs_quoting, has_cr, plain. induction f as [|c f IH]; simpl; [reflexivity|].
  intros H1 H2. apply orb_false_elim in H1 as [H1 H1']. apply orb_false_elim in H2 as [H2 H2'].
  rewrite (IH H1' H2'). unfold special. now rewrite H1, H2.
Qed.

Lemma run_IN_FIELD_plain f : forall fld ln lns rest,
  plain f ->
  tokenizer_run (tk IN_FIELD fld ln lns) (f ++ rest)
  = tokenizer_run (tk IN_FIELD (fld ++ f) ln lns) rest.
Proof.
  induction f as [|c f IH]; intros fld ln lns rest Hp.
  - simpl. now rewrite append_nil_r.
  - apply plain_cons in Hp as [Hc Hp].
    apply special_false in Hc as (Hco & Hq & Hlf & Hcr).
    simpl. unfold tokenizer_step at 1. simpl. unfold step_IN_FIELD.
    rewrite Hlf, Hcr, Hco. unfold push_char. simpl.
    fold (tk IN_FIELD (fld ++ str1 c) ln lns). rewrite IH by assumption.
    now rewrite append_str1.
Qed.

(** The tokenizer after the separator or the line end that closes field
    [fld]. *)
Definition closed (d : ascii) (fld : string) (ln : list string)
                  (lns : list (list string)) : Tokenizer :=
  if Ascii.eqb d LF
  then tk START_RECORD "" [] (lns ++ [(ln ++ [fld])%list])%list
  else tk START_FIELD "" (ln ++ [fld])%list lns.

Lemma closed_COMMA fld ln lns :
  closed COMMA fld ln lns = tk START_FIELD "" (ln ++ [fld])%list lns.
Proof. reflexivity. Qed.

Lemma closed_LF fld ln lns :
  closed LF fld ln lns = tk START_RECORD "" [] (lns ++ [(ln ++ [fld])%list])%list.
Proof. reflexivity. Qed.

Lemma step_IN_FIELD_close d fld ln lns :
  d = COMMA \/ d = LF ->
  tokenizer_step (tk IN_FIELD fld ln lns) d = closed d fld ln lns.
Proof. intros [->| ->]; reflexivity. Qed.

Lemma step_START_FIELD_close d ln lns :
  d = COMMA \/ d = LF ->
  tokenizer_step (tk START_FIELD "" ln lns) d = closed d "" ln lns.
Proof. intros [->| ->]; reflexivity. Qed.

Lemma step_QUOTE_IN_QUOTED_close d fld ln lns :
  d = COMMA \/ d = LF ->
  tokenizer_step (tk QUOTE_IN_QUOTED_FIELD fld ln lns) d = closed d fld ln lns.
Proof. intros [->| ->]; reflexivity. Qed.

Lemma run_plain_START_FIELD f d ln lns rest :
  plain f -> d = COMMA \/ d = LF ->
  tokenizer_run (tk START_FIELD "" ln lns) (f ++ String d rest)
  = tokenizer_run (closed d f ln lns) rest.
Proof.
  intros Hp Hd. destruct f as [|c f].
  - simpl. now rewrite step_START_FIELD_close.
  - apply plain_cons in Hp as [Hc Hp].
    apply special_false in Hc as (Hco & Hq & Hlf & Hcr).
    simpl. unfold tokenizer_step at 1. simpl. unfold step_START_FIELD.
    rewrite Hlf, Hcr, Hq, Hco. unfold push_char, set_state. simpl.
    fold (tk IN_FIELD (str1 c) ln lns). rewrite run_IN_FIELD_plain by assumption.
    simpl. now rewrite step_IN_FIELD_close.
Qed.

Lemma run_cons t c s :
  tokenizer_run t (String c s) = tokenizer_run (tokenizer_step t c) s.
Proof. reflexivity. Qed.

Lemma quoted_layout f rest :
  (str1 QUOTE ++ double_quotes f ++ str1 QUOTE) ++ rest
  = String QUOTE (double_quotes f ++ String QUOTE rest).
Proof. simpl. f_equal. now rewrite append_assoc. Qed.

Lemma run_quoted s f d ln lns rest :
  d = COMMA \/ d = LF ->
  tokenizer_step (tk s "" ln lns) QUOTE = tk IN_QUOTED_FIELD "" ln lns ->
  tokenizer_run (tk s "" ln lns)
    ((str1 QUOTE ++ double_quotes f ++ str1 QUOTE) ++ String d rest)
  = tokenizer_run (closed d f ln lns) rest.
Proof.
  intros Hd Hs. rewrite quoted_layout, run_cons, Hs, run_double_quotes.
  rewrite run_cons.
  change (tokenizer_step (tk IN_QUOTED_FIELD ("" ++ f) ln lns) QUOTE)
    with (tk QUOTE_IN_QUOTED_FIELD f ln lns).
  now rewrite run_cons, step_QUOTE_IN_QUOTED_close.
Qed.

Lemma run_quoted_START_FIELD f d ln lns rest :
  d = COMMA \/ d = LF ->
  tokenizer_run (tk START_FIELD "" ln lns)
    ((str1 QUOTE ++ double_quotes f ++ str1 QUOTE) ++ String d rest)
  = tokenizer_run (closed d f ln lns) rest.
Proof. intros Hd. now apply run_quoted. Qed.

Lemma run_csv_field_START_FIELD f d ln lns rest :
  writable f = true -> d = COMMA \/ d = LF ->
  tokenizer_run (tk START_FIELD "" ln lns) (csv_field f ++ String d rest)
  = tokenizer_run (closed d f ln lns) rest.
Proof.
  intros Hw Hd. unfold csv_field. destruct (needs_quoting f) eqn:E.
  - now apply run_quoted_START_FIELD.
  - apply run_plain_START_FIELD; [|assumption].
    apply unquoted_plain; [assumption|now apply writable_unquoted].
Qed.

(** The first field of a line is read from [START_RECORD]. *)

Lemma step_START_RECORD_as_START_FIELD c fld ln lns :
  Ascii.eqb c LF = false -> Ascii.eqb c CR = false -> is_blank c = false ->
  tokenizer_step (tk START_RECORD fld ln lns) c
  = tokenizer_step (tk START_FIELD fld ln lns) c.
Proof.
  intros Hlf Hcr Hb. unfold tokenizer_step. simpl. unfold step_START_RECORD.
  now rewrite Hlf, Hcr, Hb.
Qed.

Lemma run_WHITESPACE_LINE h : forall g ln lns rest,
  plain h ->
  tokenizer_run (tk WHITESPACE_LINE g ln lns) (h ++ String COMMA rest)
  = tokenizer_run (tk START_FIELD "" (ln ++ [(g ++ h)%string])%list lns) rest.
Proof.
  induction h as [|c h IH]; intros g ln lns rest Hp.
  - simpl. now rewrite append_nil_r.
  - apply plain_cons in Hp as [Hc Hp].
    apply special_false in Hc as (Hco & Hq & Hlf & Hcr).
    change (String c h ++ String COMMA rest) with (String c (h ++ String COMMA rest)).
    rewrite run_cons. unfold tokenizer_step. simpl state. cbv iota.
    rewrite Hlf, Hcr. destruct (is_blank c) eqn:Hb.
    + unfold push_char. simpl. fold (tk WHITESPACE_LINE (g ++ str1 c) ln lns).
      rewrite IH by assumption. now rewrite append_str1.
    + unfold step_IN_FIELD. rewrite Hlf, Hcr, Hco. unfold push_char, set_state. simpl.
      fold (tk IN_FIELD (g ++ str1 c) ln lns).
      rewrite run_IN_FIELD_plain by assumption. rewrite run_cons.
      rewrite step_IN_FIELD_close by now left.
      unfold closed. simpl. now rewrite append_str1.
Qed.

Lemma run_csv_field_START_RECORD f lns rest :
  writable f = true ->
  tokenizer_run (tk START_RECORD "" [] lns) (csv_field f ++ String COMMA rest)
  = tokenizer_run (tk START_FIELD "" [f] lns) rest.
Proof.
  intros Hw. unfold csv_field. destruct (needs_quoting f) eqn:E.
  - rewrite run_quoted; [reflexivity|now left|reflexivity].
  - pose proof (@unquoted_plain f E (writable_unquoted f Hw E)) as Hp.
    destruct f as [|c f].
    + reflexivity.
    + pose proof Hp as Hp'. apply plain_cons in Hp' as [Hc Hf].
      apply special_false in Hc as (Hco & Hq & Hlf & Hcr).
      destruct (is_blank c) eqn:Hb.
      * change (String c f ++ String COMMA rest)
          with (String c (f ++ String COMMA rest)).
        rewrite run_cons. unfold tokenizer_step. simpl state. cbv iota.
        unfold step_START_RECORD. rewrite Hlf, Hcr, Hb.
        unfold push_char, set_state. simpl.
        fold (tk WHITESPACE_LINE (str1 c) [] lns).
        now rewrite run_WHITESPACE_LINE by assumption.
      * change (String c f ++ String COMMA rest)
          with (String c (f ++ String COMMA rest)).
        rewrite run_cons, step_START_RECORD_as_START_FIELD by assumption.
        rewrite <- run_cons.
        change (String c (f ++ String COMMA rest))
          with (String c f ++ String COMMA rest).
        rewrite run_plain_START_FIELD; [reflexivity|assumption|now left].
Qed.

Definition fields_of (p : Profile) : list string :=
  [Name p; Industry p; Company p; Target_Audience p].

Definition writable_profile (p : Profile) : bool := forallb writable (fields_of p).

Lemma csv_line_layout p rest :
  csv_line p ++ rest
  = csv_field (Name p) ++ String COMMA
      (csv_field (Industry p) ++ String COMMA
         (csv_field (Company p) ++ String COMMA
            (csv_field (Target_Audience p) ++ String LF rest))).
Proof.
  unfold csv_line. repeat (rewrite append_assoc; simpl). reflexivity.
Qed.

Lemma run_csv_line p lns rest :
  writable_profile p = true ->
  tokenizer_run (tk START_RECORD "" [] lns) (csv_line p ++ rest)
  = tokenizer_run (tk START_RECORD "" [] (lns ++ [fields_of p])%list) rest.
Proof.
  intros Hw. unfold writable_profile, fields_of in Hw. simpl in Hw.
  apply andb_true_iff in Hw as [H1 Hw]. apply andb_true_iff in Hw as [H2 Hw].
  apply andb_true_iff in Hw as [H3 Hw]. apply andb_true_iff in Hw as [H4 _].
  rewrite csv_line_layout.
  rewrite run_csv_field_START_RECORD by assumption.
  rewrite run_csv_field_START_FIELD, closed_COMMA by (assumption || now left).
  rewrite run_csv_field_START_FIELD, closed_COMMA by (assumption || now left).
  rewrite run_csv_field_START_FIELD, closed_LF by (assumption || now right).
  reflexivity.
Qed.

(** The text of a store into which the profiles [ps] were saved, oldest
    first. *)
Fixpoint saved (ps : list Profile) : string :=
  match ps with
  | [] => ""
  | p :: rest => csv_line p ++ saved rest
  end.

Lemma saved_app ps qs : saved (ps ++ qs)%list = saved ps ++ saved qs.
Proof.
  induction ps as [|p ps IH]; simpl; [reflexivity|].
  now rewrite IH, append_assoc.
Qed.

Lemma run_saved ps : forall lns,
  forallb writable_profile ps = true ->
  tokenizer_run (tk START_RECORD "" [] lns) (saved ps)
  = tk START_RECORD "" [] (lns ++ map fields_of ps)%list.
Proof.
  induction ps as [|p ps IH]; intros lns Hw.
  - simpl. now rewrite app_nil_r.
  - simpl in Hw. apply andb_true_iff in Hw as [Hp Hps]. simpl saved.
    rewrite run_csv_line by assumption. rewrite IH by assumption.
    simpl. now rewrite <- app_assoc.
Qed.

Lemma tokenize_saved ps :
  forallb writable_profile ps = true ->
  tokenize (saved ps) = inr (map fields_of ps).
Proof.
  intros Hw. unfold tokenize, tokenizer_init.
  fold (tk START_RECORD "" [] []). now rewrite run_saved.
Qed.

(** Reading inverts writing: the tokenizer of [pd.read_csv] finds, in a
    store written by [save_profile], one line of four fields per saved
    profile, each field the string that was saved, commas, quotes and line
    feeds in it included.  The one exception is a field with a carriage
    return and none of these characters: the writer leaves it unquoted and
    the reader ends the line at it; [writable] excludes such fields. *)
Theorem store_tokens_are_saved_fields ps :
  forallb writable_profile ps = true ->
  tokenize (saved ps)
  = inr (map (fun p => [Name p; Industry p; Company p; Target_Audience p]) ps).
Proof. exact (@tokenize_saved ps). Qed.

(** A profile with a comma, a quote, a line feed and a quoted carriage
    return in its fields. *)
Definition profile_with_punctuation : Profile :=
  {| Name := "Ada, " ++ str1 QUOTE ++ "the first" ++ str1 QUOTE;
     Industry := " Retail ";
     Company := "";
     Target_Audience := "Buyers" ++ str1 CR ++ str1 LF ++ "Sellers" |}.

Lemma store_tokens_are_saved_fields_witness :
  tokenize (saved [profile_with_punctuation; profile_without_company])
  = inr [[Name profile_with_punctuation; " Retail "; "";
          Target_Audience profile_with_punctuation];
         ["Ada"; "Retail"; ""; "Buyers"]].
Proof.
  apply (@store_tokens_are_saved_fields
           [profile_with_punctuation; profile_without_company]).
  reflexivity.
Defined.

(** A field that holds a carriage return and nothing the writer quotes for
    is split by the reader: one saved profile, two lines. *)
Example bare_carriage_return_splits_the_line :
  tokenize (saved [{| Name := "Ada" ++ str1 CR ++ "Lovelace"; Industry := "Retail";
                      Company := "Shop"; Target_Audience := "Buyers" |}])
  = inr [["Ada"]; ["Lovelace"; "Retail"; "Shop"; "Buyers"]].
Proof. reflexivity. Qed.

(** The store of world [w] is what saving [ps], oldest first, into no file
    leaves. *)
Definition store_holds (w : World) (ps : list Profile) : Prop :=
  csv_file w = match ps with [] => None | _ :: _ => Some (saved ps) end.

Lemma store_holds_save w ps p :
  store_holds w ps -> store_holds (snd (save_profile p w)) (ps ++ [p]).
Proof.
  unfold store_holds, save_profile. simpl. intros ->.
  destruct ps as [|q ps]; simpl.
  - now rewrite append_nil_r.
  - f_equal. rewrite saved_app. simpl. now rewrite append_nil_r, append_assoc.
Qed.

Section Columns.

Variable cv : Converters.

Lemma all_some_nth {A B} (f : A -> option B) toks : forall cells k tok,
  all_some (map f toks) = Some cells ->
  nth_error toks k = Some tok ->
  exists c, f tok = Some c /\ nth_error cells k = Some c.
Proof.
  induction toks as [|t toks IH]; intros cells k tok Hall Hk.
  - destruct k; discriminate.
  - simpl in Hall. destruct (f t) as [c|] eqn:Ef; [|discriminate].
    destruct (all_some (map f toks)) as [r|] eqn:Er; [|discriminate].
    injection Hall as <-. destruct k as [|k]; simpl in *.
    + injection Hk as <-. now exists c.
    + now apply IH.
Qed.

Lemma all_some_none {A B} (f : A -> option B) toks tok :
  In tok toks -> f tok = None -> all_some (map f toks) = None.
Proof.
  induction toks as [|t toks IH]; intros Hin Hf; [contradiction|].
  simpl. destruct Hin as [->|Hin].
  - now rewrite Hf.
  - destruct (f t); [|reflexivity]. now rewrite IH.
Qed.

(** A missing-value token is NaN in the loaded column, whatever type the
    column gets. *)
Lemma convert_column_na toks k tok :
  nth_error toks k = Some tok ->
  is_na tok = true ->
  nth k (convert_column cv toks) NaN = NaN.
Proof.
  intros Hk Hna. unfold convert_column.
  destruct (all_some (map (int64_cell cv) toks)) as [cells|] eqn:Ei.
  { destruct (@all_some_nth _ _ _ _ _ _ _ Ei Hk) as [c [Hc _]].
    unfold int64_cell in Hc. rewrite Hna in Hc. discriminate. }
  destruct (all_some (map (float64_cell cv) toks)) as [cells|] eqn:Ef.
  { destruct (@all_some_nth _ _ _ _ _ _ _ Ef Hk) as [c [Hc Hn]].
    unfold float64_cell in Hc. rewrite Hna in Hc. injection Hc as <-.
    now apply nth_error_nth. }
  destruct (all_some (map (bool_cell cv) toks)) as [cells|] eqn:Eb.
  { destruct (@all_some_nth _ _ _ _ _ _ _ Eb Hk) as [c [Hc Hn]].
    unfold bool_cell in Hc. rewrite Hna in Hc. injection Hc as <-.
    now apply nth_error_nth. }
  apply nth_error_nth. rewrite nth_error_map, Hk. simpl.
  unfold object_cell. now rewrite Hna.
Qed.

(** A token the reader takes for text: no missing-value marker, no number,
    no boolean. *)
Definition is_text (tok : string) : bool :=
  negb (is_na tok) && negb (is_int64 cv tok) && negb (is_float64 cv tok)
  && match as_bool cv tok with Some _ => false | None => true end.

Lemma is_text_true tok :
  is_text tok = true ->
  is_na tok = false /\ is_int64 cv tok = false
  /\ is_float64 cv tok = false /\ as_bool cv tok = None.
Proof.
  unfold is_text. intros H.
  apply andb_true_iff in H as [H Hb]. apply andb_true_iff in H as [H Hf].
  apply andb_true_iff in H as [Hn Hi].
  apply negb_true_iff in Hn, Hi, Hf. destruct (as_bool cv tok); [discriminate|].
  auto.
Qed.

(** One text token makes the column a column of strings. *)
Lemma convert_column_text toks tok :
  In tok toks -> is_text tok = true ->
  convert_column cv toks = map object_cell toks.
Proof.
  intros Hin Ht. apply is_text_true in Ht as (Hna & Hi & Hf & Hb).
  unfold convert_column.
  rewrite (@all_some_none _ _ (int64_cell cv) toks tok Hin)
    by (unfold int64_cell; now rewrite Hna, Hi).
  rewrite (@all_some_none _ _ (float64_cell cv) toks tok Hin)
    by (unfold float64_cell; now rewrite Hna, Hf).
  rewrite (@all_some_none _ _ (bool_cell cv) toks tok Hin)
    by (unfold bool_cell; now rewrite Hna, Hb).
  reflexivity.
Qed.

End Columns.

Section SavedStore.

Variable cv : Converters.

(** The tokens of column [i] of a store, oldest first. *)
Definition column_tokens (i : nat) (qs : list Profile) : list string :=
  map (fun q => nth i (fields_of q) "") qs.

(** Row [k] of the table loaded from the profiles [qs]. *)
Definition loaded_row (qs : list Profile) (k : nat) : list scalar :=
  map (fun i => nth k (convert_column cv (column_tokens i qs)) NaN) (seq 0 4).

Lemma no_wide_line qs :
  existsb (fun fields => (4 <? List.length fields)%nat) (map fields_of qs) = false.
Proof. induction qs as [|q qs IH]; [reflexivity|exact IH]. Qed.

Lemma pad_fields_of qs : map (pad 4) (map fields_of qs) = map fields_of qs.
Proof. induction qs as [|q qs IH]; [reflexivity|]. simpl. now rewrite IH. Qed.

Lemma read_csv_saved qs :
  qs <> [] ->
  forallb writable_profile qs = true ->
  read_csv cv (saved qs) profile_columns
  = inr {| columns := profile_columns;
           rows := map (loaded_row qs) (seq 0 (List.length qs)) |}.
Proof.
  intros Hne Hw. unfold read_csv. rewrite tokenize_saved by assumption.
  destruct qs as [|q qs]; [contradiction|].
  set (all := q :: qs) in *.
  change (map fields_of all) with (fields_of q :: map fields_of qs) at 1.
  cbv iota.
  change (fields_of q :: map fields_of qs) with (map fields_of all).
  change (List.length profile_columns) with 4%nat. cbv zeta.
  rewrite no_wide_line, pad_fields_of, length_map.
  f_equal. f_equal. apply map_ext. intros k. unfold loaded_row.
  rewrite map_map. apply map_ext. intros i. unfold column_tokens.
  now rewrite map_map.
Qed.

Lemma last_loaded_row qs p :
  last (map (loaded_row (qs ++ [p])) (seq 0 (List.length (qs ++ [p])))) []
  = loaded_row (qs ++ [p]) (List.length qs).
Proof.
  rewrite length_app. simpl List.length. rewrite Nat.add_1_r, seq_S, map_app.
  simpl. apply last_last.
Qed.

Lemma column_tokens_last i qs p :
  nth_error (column_tokens i (qs ++ [p])) (List.length qs)
  = Some (nth i (fields_of p) "").
Proof.
  unfold column_tokens. rewrite map_app. simpl.
  rewrite nth_error_app2 by (rewrite length_map; lia).
  rewrite length_map, Nat.sub_diag. reflexivity.
Qed.

(** Loading after a save: the table has one row per saved profile, and its
    last row is the one converted from the profile saved last. *)
Lemma load_after_save w ps p :
  store_holds w ps ->
  forallb writable_profile (ps ++ [p]) = true ->
  load_profiles cv (snd (save_profile p w))
  = (Done {| columns := profile_columns;
             rows := map (loaded_row (ps ++ [p]))
                         (seq 0 (List.length (ps ++ [p]))) |},
     snd (save_profile p w)).
Proof.
  intros Hs Hw. apply (store_holds_save p) in Hs.
  unfold load_profiles. rewrite Hs.
  destruct (ps ++ [p])%list as [|q qs] eqn:E.
  - destruct ps; discriminate.
  - rewrite read_csv_saved; [reflexivity|discriminate|assumption].
Qed.


Lemma loaded_cell_text i ps p :
  is_text cv (nth i (fields_of p) "") = true ->
  nth (List.length ps) (convert_column cv (column_tokens i (ps ++ [p]))) NaN
  = Str (nth i (fields_of p) "").
Proof.
  intros Ht. pose proof (column_tokens_last i ps p) as Hk.
  rewrite (convert_column_text cv _ _ (nth_error_In _ _ Hk) Ht).
  apply nth_error_nth. rewrite nth_error_map, Hk. cbn [option_map].
  apply is_text_true in Ht as [Hna _]. unfold object_cell. now rewrite Hna.
Qed.

End SavedStore.

(** Saving a profile whose four fields the reader takes for text, into a
    store of profiles saved before, and loading: the table has one row per
    profile and its last row is the saved profile, field for field.  No
    field of the store may hold a carriage return outside a quoted field. *)
Theorem save_then_load_text cv w ps p :
  store_holds w ps ->
  forallb writable_profile (ps ++ [p]) = true ->
  forallb (is_text cv) (fields_of p) = true ->
  exists df,
    load_profiles cv (snd (save_profile p w)) = (Done df, snd (save_profile p w))
    /\ columns df = profile_columns
    /\ List.length (rows df) = S (List.length ps)
    /\ last (rows df) []
       = [Str (Name p); Str (Industry p); Str (Company p); Str (Target_Audience p)].
Proof.
  intros Hs Hw Ht. eexists. split; [exact (@load_after_save cv w ps p Hs Hw)|].
  cbn [columns rows]. split; [reflexivity|]. split.
  - rewrite length_map, length_seq, length_app. simpl. lia.
  - rewrite last_loaded_row. unfold loaded_row. cbn [seq map].
    cbn [forallb fields_of] in Ht.
    apply andb_true_iff in Ht as [H0 Ht]. apply andb_true_iff in Ht as [H1 Ht].
    apply andb_true_iff in Ht as [H2 Ht]. apply andb_true_iff in Ht as [H3 _].
    rewrite (loaded_cell_text cv 0 ps p H0), (loaded_cell_text cv 1 ps p H1),
            (loaded_cell_text cv 2 ps p H2), (loaded_cell_text cv 3 ps p H3).
    reflexivity.
Qed.

Definition profile_of_ada : Profile :=
  {| Name := "Ada"; Industry := "Retail"; Company := "Shop, Ltd";
     Target_Audience := "Buyers" |}.

Lemma save_then_load_text_witness :
  exists df,
    load_profiles text_only (snd (save_profile profile_of_ada fresh_world))
    = (Done df, snd (save_profile profile_of_ada fresh_world))
    /\ columns df = profile_columns
    /\ List.length (rows df) = 1%nat
    /\ last (rows df) [] = [Str "Ada"; Str "Retail"; Str "Shop, Ltd"; Str "Buyers"].
Proof.
  apply (@save_then_load_text text_only fresh_world [] profile_of_ada);
    reflexivity.
Defined.




(** ** Send Email after a failed generation *)

Lemma last_content_app msgs m : last_content (msgs ++ [m]) = inr (content m).
Proof. unfold last_content. now rewrite rev_app_distr. Qed.

(** The body Send Email hands to the provider is the content of the last
    message of the conversation.  After a Generate Email that failed on a
    status other than 200 this is the user prompt of that attempt, also
    when an earlier generation succeeded and set the generated-flag. *)
Theorem send_after_failed_generate_sends_prompt cfg srv prompt email_subject
        recipient_email w s :
  RESEND_INSTALLED cfg = true ->
  truthy (RESEND_API_KEY cfg) = true ->
  session w = Some s ->
  status_code (completion srv (messages s ++ [user_message prompt])%list) <> 200%Z ->
  exists rest,
    log (snd (send_email_button cfg srv email_subject recipient_email
                (snd (generate_email_button srv prompt w))))
    = (log (snd (generate_email_button srv prompt w)) ++
       HttpResendSend (send_params email_subject (PStr prompt) fixed_recipient)
       :: rest)%list.
Proof.
  intros Hi Hk Hs Hc.
  rewrite (@generate_email_button_not_200 srv prompt w s Hs Hc).
  cbn [snd]. set (w1 := logged _ _).
  unfold send_email_button. rewrite Hi, Hk. cbn [andb].
  unfold bind at 1. unfold get_session.
  change (session w1) with (Some (with_user_message s prompt)). cbv beta iota.
  unfold bind at 1. unfold with_user_message at 1. cbn [messages].
  rewrite last_content_app. cbn [lift ret content user_message]. cbv beta iota.
  unfold bind at 1. rewrite send_email_configured by assumption.
  destruct (resend_send srv _) as [email|e].
  - destruct (is_None email).
    + eexists. rewrite emit_logged, logged_logged. reflexivity.
    + destruct (has_id email).
      * unfold bind. destruct (getitem_str email "id"); cbn [lift].
        -- exists []. reflexivity.
        -- eexists. unfold ret. rewrite emit_logged, logged_logged. reflexivity.
      * eexists. rewrite emit_logged, logged_logged. reflexivity.
  - destruct (is_None PNone) eqn:E; [|discriminate].
    eexists. rewrite emit_logged, logged_logged. reflexivity.
Qed.

Lemma send_after_failed_generate_sends_prompt_witness :
  exists rest,
    log (snd (send_email_button config_with_resend failing_service "Offer"
                "bob@example.org"
                (snd (generate_email_button failing_service "Write to Bob"
                        generated_world))))
    = (log (snd (generate_email_button failing_service "Write to Bob" generated_world))
       ++ HttpResendSend (send_params "Offer" (PStr "Write to Bob") fixed_recipient)
       :: rest)%list.
Proof.
  apply (@send_after_failed_generate_sends_prompt config_with_resend failing_service
           "Write to Bob" "Offer" "bob@example.org" generated_world generated_session).
  - reflexivity.
  - reflexivity.
  - reflexivity.
  - simpl. lia.
Defined.

(** ** Further behaviour of the handlers *)

(** An exception of the e-mail provider does not leave [send_email]: it is
    shown as an error and the function returns [None]. *)
Theorem send_email_provider_error_is_caught cfg srv subject body recipient w e :
  RESEND_INSTALLED cfg = true ->
  truthy (RESEND_API_KEY cfg) = true ->
  resend_send srv (send_params subject body recipient) = Raising e ->
  send_email cfg srv subject body recipient w
  = (Done PNone,
     logged w [HttpResendSend (send_params subject body recipient);
               UiError (FailedToSend e)]).
Proof.
  intros Hi Hk Hr. rewrite send_email_configured by assumption. now rewrite Hr.
Qed.

Definition refusing_service : Services :=
  {| completion := fun _ => {| status_code := 200; json := None |};
     resend_send := fun _ => Raising "403 Forbidden" |}.

Lemma send_email_provider_error_is_caught_witness :
  send_email config_with_resend refusing_service "Offer" (PStr "Dear Bob")
             fixed_recipient fresh_world
  = (Done PNone,
     logged fresh_world
       [HttpResendSend (send_params "Offer" (PStr "Dear Bob") fixed_recipient);
        UiError (FailedToSend "403 Forbidden")]).
Proof.
  apply (@send_email_provider_error_is_caught config_with_resend refusing_service
           "Offer" (PStr "Dear Bob") fixed_recipient fresh_world "403 Forbidden");
    reflexivity.
Defined.



(** Without the completion key the script stops in its start-up part: the
    error is shown, and neither the session nor the profile file is
    touched, whatever the widgets hold. *)
Theorem script_stops_without_groq_key cv cfg srv inp w :
  DOTENV_INSTALLED cfg = true ->
  truthy (GROQ_API_KEY cfg) = false ->
  script cv cfg srv inp w
  = (Stopped,
     logged w ((if RESEND_INSTALLED cfg then []
                else [UiError ResendNotInstalled; UiInfoSendingDisabled])
               ++ [UiError GroqKeyNotSet])%list).
Proof.
  intros Hd Hg. unfold script, startup. rewrite Hd, Hg.
  destruct (RESEND_INSTALLED cfg); unfold logged; cbn;
    rewrite <- ?app_assoc; reflexivity.
Qed.

Definition config_without_groq_key : Config :=
  {| DOTENV_INSTALLED := true; RESEND_INSTALLED := true;
     GROQ_API_KEY := None; RESEND_API_KEY := Some "re" |}.

Lemma script_stops_without_groq_key_witness :
  script text_only config_without_groq_key hello_service generate_inputs fresh_world
  = (Stopped, logged fresh_world [UiError GroqKeyNotSet]).
Proof.
  apply (@script_stops_without_groq_key text_only config_without_groq_key
           hello_service generate_inputs fresh_world);
    reflexivity.
Defined.

(** ** Completion client: every answer *)

(** [body["choices"][0]["message"]["content"]] *)
Definition completion_text (body : pyval) : exn + pyval :=
  match getitem_str body "choices" with
  | inl e => inl e
  | inr choices =>
      match getitem_0 choices with
      | inl e => inl e
      | inr choice =>
          match getitem_str choice "message" with
          | inl e => inl e
          | inr message => getitem_str message "content"
          end
      end
  end.

Lemma get_llm_response_200_body srv msgs w body :
  status_code (completion srv msgs) = 200%Z ->
  json (completion srv msgs) = Some body ->
  get_llm_response srv msgs w
  = (match completion_text body with
     | inl e => Raised e
     | inr text => Done text
     end, logged w [HttpCompletion "llama3-8b-8192" msgs]).
Proof.
  intros Hs Hj. unfold get_llm_response, bind. rewrite emit_logged, Hs, Hj.
  cbn [Z.eqb Pos.eqb]. unfold completion_text.
  destruct (getitem_str body "choices") as [e|choices]; [reflexivity|].
  cbn [lift ret]. destruct (getitem_0 choices) as [e|choice]; [reflexivity|].
  cbn [lift ret]. destruct (getitem_str choice "message") as [e|message];
    [reflexivity|].
  cbn [lift ret]. destruct (getitem_str message "content"); reflexivity.
Qed.

Lemma get_llm_response_undecodable srv msgs w :
  status_code (completion srv msgs) = 200%Z ->
  json (completion srv msgs) = None ->
  get_llm_response srv msgs w
  = (Raised JSONDecodeError, logged w [HttpCompletion "llama3-8b-8192" msgs]).
Proof.
  intros Hs Hj. unfold get_llm_response, bind. rewrite emit_logged, Hs, Hj.
  reflexivity.
Qed.

(** What [get_llm_response] can do to the world: log the request, and the
    error of a status other than 200. *)
Lemma get_llm_response_world srv msgs w :
  snd (get_llm_response srv msgs w)
  = logged w (HttpCompletion "llama3-8b-8192" msgs ::
              if (status_code (completion srv msgs) =? 200)%Z then []
              else [UiError (ApiRequestFailed (status_code (completion srv msgs)))]).
Proof.
  destruct (Z.eqb_spec (status_code (completion srv msgs)) 200) as [E|E].
  - destruct (json (completion srv msgs)) as [body|] eqn:Hj.
    + now rewrite (get_llm_response_200_body srv msgs w E Hj).
    + now rewrite (get_llm_response_undecodable srv msgs w E Hj).
  - now rewrite get_llm_response_not_200.
Qed.

Definition is_Done {A} (o : outcome A) : bool :=
  match o with Done _ => true | _ => false end.

Definition is_Rerun {A} (o : outcome A) : bool :=
  match o with Rerun => true | _ => false end.

Lemma get_llm_response_outcome srv msgs w :
  fst (get_llm_response srv msgs w)
  = if (status_code (completion srv msgs) =? 200)%Z then
      match json (completion srv msgs) with
      | None => Raised JSONDecodeError
      | Some body =>
          match completion_text body with
          | inl e => Raised e
          | inr text => Done text
          end
      end
    else Stopped.
Proof.
  destruct (Z.eqb_spec (status_code (completion srv msgs)) 200) as [E|E].
  - destruct (json (completion srv msgs)) as [body|] eqn:Hj.
    + now rewrite (get_llm_response_200_body srv msgs w E Hj).
    + now rewrite (get_llm_response_undecodable srv msgs w E Hj).
  - now rewrite get_llm_response_not_200.
Qed.

(** Every call of [get_llm_response] makes exactly one request, with the
    fixed model and the messages it was given, whatever the answer: nothing
    is retried.  Beyond that request the call only shows the error of a
    status other than 200; session and profile file are as before. *)
Theorem get_llm_response_one_request srv msgs w :
  exists shown,
    snd (get_llm_response srv msgs w)
    = logged w (HttpCompletion "llama3-8b-8192" msgs :: shown)
    /\ (shown = []
        \/ shown = [UiError (ApiRequestFailed (status_code (completion srv msgs)))])
    /\ session (snd (get_llm_response srv msgs w)) = session w
    /\ csv_file (snd (get_llm_response srv msgs w)) = csv_file w.
Proof.
  rewrite get_llm_response_world. eexists. split; [reflexivity|].
  split; [destruct (_ =? _)%Z; auto|]. split; reflexivity.
Qed.

(** A 200 answer whose body is JSON but has no [choices[0].message.content]
    is not handled: the exception of the failing subscript leaves
    [get_llm_response], no error message is shown, and [st.stop] is not
    called. *)
Theorem get_llm_response_unexpected_body srv msgs w body e :
  status_code (completion srv msgs) = 200%Z ->
  json (completion srv msgs) = Some body ->
  completion_text body = inl e ->
  get_llm_response srv msgs w
  = (Raised e, logged w [HttpCompletion "llama3-8b-8192" msgs]).
Proof.
  intros Hs Hj He. rewrite (get_llm_response_200_body srv msgs w Hs Hj).
  now rewrite He.
Qed.

(** An answer with status 200 and the body [{"error": "rate limit"}]. *)
Definition error_body_service : Services :=
  {| completion := fun _ =>
       {| status_code := 200;
          json := Some (PDict [("error", PStr "rate limit")]) |};
     resend_send := fun _ => Returned PNone |}.

Lemma get_llm_response_unexpected_body_witness :
  get_llm_response error_body_service [system_message] fresh_world
  = (Raised (KeyError "choices"),
     logged fresh_world [HttpCompletion "llama3-8b-8192" [system_message]]).
Proof.
  apply (@get_llm_response_unexpected_body error_body_service [system_message]
           fresh_world (PDict [("error", PStr "rate limit")]) (KeyError "choices"));
    reflexivity.
Defined.

Example completion_text_no_choice :
  completion_text (PDict [("choices", PList [])]) = inl IndexError.
Proof. reflexivity. Qed.

(** ** Generate Email: every answer *)

(** The two ways a Generate Email action can end. *)
Lemma generate_email_button_cases srv prompt w s :
  session w = Some s ->
  exists o w' s',
    generate_email_button srv prompt w = (o, w')
    /\ session w' = Some s'
    /\ profile s' = profile s
    /\ csv_file w' = csv_file w
    /\ ((exists text,
           o = Done tt
           /\ messages s'
              = (messages s ++ [user_message prompt;
                                {| role := "assistant"; content := text |}])%list
           /\ email_generated s' = true)
        \/ (is_Done o = false
            /\ messages s' = (messages s ++ [user_message prompt])%list
            /\ email_generated s' = email_generated s)).
Proof.
  intros Hs. unfold generate_email_button.
  unfold bind at 1. unfold append_message, bind at 1, get_session. rewrite Hs.
  unfold put_session. cbv beta iota. fold (user_message prompt).
  fold (with_user_message s prompt).
  fold (with_session w (with_user_message s prompt)).
  set (w1 := with_session w (with_user_message s prompt)).
  unfold bind at 1. cbn [session w1 with_session]. cbv beta iota.
  unfold bind at 1.
  pose proof (get_llm_response_world srv (messages (with_user_message s prompt)) w1)
    as Hw.
  destruct (get_llm_response srv (messages (with_user_message s prompt)) w1)
    as [[text| | |e] w2]; cbn [snd] in Hw; subst w2.
  - do 3 eexists. split; [reflexivity|]. cbn.
    split; [reflexivity|]. split; [reflexivity|]. split; [reflexivity|].
    left. exists text. split; [reflexivity|]. split; [|reflexivity].
    now rewrite <- app_assoc.
  - do 3 eexists. split; [reflexivity|]. cbn.
    split; [reflexivity|]. split; [reflexivity|]. split; [reflexivity|].
    right. auto.
  - do 3 eexists. split; [reflexivity|]. cbn.
    split; [reflexivity|]. split; [reflexivity|]. split; [reflexivity|].
    right. auto.
  - do 3 eexists. split; [reflexivity|]. cbn.
    split; [reflexivity|]. split; [reflexivity|]. split; [reflexivity|].
    right. auto.
Qed.

(** Generate Email is all or nothing on the assistant's side: when the
    action completes, the conversation has grown by the user message and
    the assistant message and the generated-flag is set; in every other
    case (a status other than 200, an undecodable or unexpected body) it has
    grown by the user message alone and the flag is as before.  Profile and
    profile file are never touched. *)
Theorem generate_email_button_outcomes srv prompt w s :
  session w = Some s ->
  exists o w' s',
    generate_email_button srv prompt w = (o, w')
    /\ session w' = Some s'
    /\ profile s' = profile s
    /\ csv_file w' = csv_file w
    /\ ((exists text,
           o = Done tt
           /\ messages s'
              = (messages s ++ [user_message prompt;
                                {| role := "assistant"; content := text |}])%list
           /\ email_generated s' = true)
        \/ (is_Done o = false
            /\ messages s' = (messages s ++ [user_message prompt])%list
            /\ email_generated s' = email_generated s)).
Proof. exact (@generate_email_button_cases srv prompt w s). Qed.

Lemma generate_email_button_outcomes_witness :
  exists o w' s',
    generate_email_button error_body_service "Write to Bob" started_world = (o, w')
    /\ session w' = Some s'
    /\ profile s' = []
    /\ csv_file w' = None
    /\ ((exists text,
           o = Done tt
           /\ messages s'
              = [system_message; user_message "Write to Bob";
                 {| role := "assistant"; content := text |}]
           /\ email_generated s' = true)
        \/ (is_Done o = false
            /\ messages s' = [system_message; user_message "Write to Bob"]
            /\ email_generated s' = false)).
Proof.
  apply (@generate_email_button_outcomes error_body_service "Write to Bob"
           started_world initial_session).
  reflexivity.
Defined.

(** ** Email client: every answer *)

(** [send_email] always returns: with the provider's result when the call
    went through, with [None] when sending is not configured or the
    provider raised.  It makes at most one request and touches neither the
    session nor the profile file. *)
Theorem send_email_always_returns cfg srv subject body recipient w :
  exists email shown,
    send_email cfg srv subject body recipient w = (Done email, logged w shown)
    /\ (shown = [UiError EmailNotAvailable] /\ email = PNone
        \/ shown = [HttpResendSend (send_params subject body recipient)]
           /\ resend_send srv (send_params subject body recipient) = Returned email
        \/ exists e,
             shown = [HttpResendSend (send_params subject body recipient);
                      UiError (FailedToSend e)]
             /\ email = PNone
             /\ resend_send srv (send_params subject body recipient) = Raising e).
Proof.
  destruct (RESEND_INSTALLED cfg) eqn:Hi; [destruct (truthy (RESEND_API_KEY cfg)) eqn:Hk|].
  - rewrite send_email_configured by assumption.
    destruct (resend_send srv (send_params subject body recipient)) as [email|e] eqn:Hr.
    + do 2 eexists. split; [reflexivity|]. right. left. auto.
    + do 2 eexists. split; [reflexivity|]. right. right. exists e. auto.
  - do 2 eexists. split; [|left; split; reflexivity].
    unfold send_email. rewrite Hi, Hk. reflexivity.
  - do 2 eexists. split; [|left; split; reflexivity].
    unfold send_email. rewrite Hi. reflexivity.
Qed.

(** ** Send Email: a result with an identifier *)

(** When the provider returns a dict with the key [id], the Send Email
    handler reports success with the value of that key, and nothing else. *)
Theorem send_with_id_is_success cfg srv email_subject recipient_email w s body items id :
  RESEND_INSTALLED cfg = true ->
  truthy (RESEND_API_KEY cfg) = true ->
  session w = Some s ->
  last_content (messages s) = inr body ->
  resend_send srv (send_params email_subject body fixed_recipient)
  = Returned (PDict items) ->
  dict_get items "id" = Some id ->
  send_email_button cfg srv email_subject recipient_email w
  = (Done tt,
     logged w [HttpResendSend (send_params email_subject body fixed_recipient);
               UiSuccessEmailSent id]).
Proof.
  intros Hi Hk Hs Hb Hr Hid.
  rewrite (@send_email_button_returned cfg srv email_subject recipient_email
             w s body (PDict items) Hi Hk Hs Hb Hr).
  unfold send_report, has_id, dict_mem, getitem_str. cbn [is_None].
  now rewrite Hid.
Qed.

Definition accepting_service : Services :=
  {| completion := fun _ => {| status_code := 500; json := None |};
     resend_send := fun _ => Returned (PDict [("id", PStr "49a3999c")]) |}.

Lemma send_with_id_is_success_witness :
  send_email_button config_with_resend accepting_service "Offer" "ada@example.org"
                    generated_world
  = (Done tt,
     logged generated_world
       [HttpResendSend (send_params "Offer" (PStr "Dear Ada") fixed_recipient);
        UiSuccessEmailSent (PStr "49a3999c")]).
Proof.
  apply (@send_with_id_is_success config_with_resend accepting_service "Offer"
           "ada@example.org" generated_world generated_session (PStr "Dear Ada")
           [("id", PStr "49a3999c")] (PStr "49a3999c"));
    reflexivity.
Defined.

(** ** Start-up *)

(** The start-up part lets the script go on exactly when python-dotenv is
    installed and the completion key is set and not empty; otherwise it
    stops.  Either way it only shows messages: session and profile file are
    as before. *)
Theorem startup_outcome cfg w :
  fst (startup cfg w)
  = (if DOTENV_INSTALLED cfg && truthy (GROQ_API_KEY cfg) then Done tt else Stopped)
  /\ session (snd (startup cfg w)) = session w
  /\ csv_file (snd (startup cfg w)) = csv_file w.
Proof.
  unfold startup.
  destruct (DOTENV_INSTALLED cfg), (RESEND_INSTALLED cfg),
    (truthy (GROQ_API_KEY cfg)), (truthy (RESEND_API_KEY cfg));
    repeat split.
Qed.

(** ** Load Existing Profile: the edges *)

Definition with_profile (s : Session) (d : profile_dict) : Session :=
  {| messages := messages s; email_generated := email_generated s; profile := d |}.

(** Without a profile file, Load Existing Profile warns that there are no
    profiles and goes on as Create New Profile: the session's profile is
    emptied. *)
Theorem load_existing_without_store cv selected_index w s :
  session w = Some s ->
  csv_file w = None ->
  profile_setup cv LoadExistingProfile selected_index w
  = (Done tt, logged (with_session w (with_profile s [])) [UiWarningNoProfiles]).
Proof.
  intros Hs Hf. unfold profile_setup, bind.
  unfold load_profiles. rewrite Hf. cbn [df_empty columns rows negb profile_columns].
  rewrite emit_logged. cbn [ret]. unfold set_profile, bind, get_session.
  cbn [session logged]. rewrite Hs. reflexivity.
Qed.

Lemma load_existing_without_store_witness :
  profile_setup text_only LoadExistingProfile 0 generated_world
  = (Done tt,
     logged (with_session generated_world (with_profile generated_session []))
       [UiWarningNoProfiles]).
Proof.
  apply (@load_existing_without_store text_only 0 generated_world generated_session);
    reflexivity.
Defined.

Lemma scalar_eqb_NaN cv x : scalar_eqb cv x NaN = false.
Proof. destruct x; reflexivity. Qed.

Lemma filter_none {A} (f : A -> bool) l :
  (forall x, f x = false) -> filter f l = [].
Proof.
  intros H. induction l as [|x l IH]; [reflexivity|]. simpl. now rewrite H.
Qed.

(** Loading a store that holds the saved profiles [ps]. *)
Lemma load_saved_store cv w ps :
  store_holds w ps ->
  ps <> [] ->
  forallb writable_profile ps = true ->
  load_profiles cv w
  = (Done {| columns := profile_columns;
             rows := map (loaded_row cv ps) (seq 0 (List.length ps)) |}, w).
Proof.
  intros Hs Hne Hw. unfold load_profiles. unfold store_holds in Hs. rewrite Hs.
  destruct ps as [|q ps]; [contradiction|].
  rewrite read_csv_saved; [reflexivity|discriminate|assumption].
Qed.

(** The Name cell of row [k] of a loaded store. *)
Lemma loaded_name cv ps k :
  (k < List.length ps)%nat ->
  nth k (map name_of (map (loaded_row cv ps) (seq 0 (List.length ps)))) NaN
  = nth k (convert_column cv (column_tokens 0 ps)) NaN.
Proof.
  intros Hk. rewrite map_map.
  rewrite (nth_indep _ NaN (name_of (loaded_row cv ps 0)))
    by (rewrite length_map, length_seq; exact Hk).
  rewrite (map_nth (fun i => name_of (loaded_row cv ps i)) (seq 0 (List.length ps)) 0 k).
  rewrite seq_nth by exact Hk. reflexivity.
Qed.

Lemma selectbox_in_range options k :
  (k < List.length options)%nat -> selectbox options k = nth k options NaN.
Proof. intros Hk. unfold selectbox. now apply nth_indep. Qed.

(** A saved profile whose Name the reader takes for a missing value (an
    empty Name, or NA, null, None ...) cannot be loaded: its Name cell is
    NaN, NaN equals no cell, so selecting it in the box leaves no row and
    [iloc[0]] raises.  The session and the file stay as they were. *)
Theorem load_existing_unnamed_profile_raises cv w ps k q :
  store_holds w ps ->
  forallb writable_profile ps = true ->
  nth_error ps k = Some q ->
  is_na (Name q) = true ->
  profile_setup cv LoadExistingProfile k w = (Raised IndexError, w).
Proof.
  intros Hs Hw Hq Hna.
  assert (Hk : (k < List.length ps)%nat) by (apply nth_error_Some; congruence).
  assert (Hne : ps <> []) by (destruct ps; [destruct k; discriminate|discriminate]).
  pose proof (load_saved_store cv Hs Hne Hw) as Hload.
  set (table := map (loaded_row cv ps) (seq 0 (List.length ps))) in *.
  assert (Hlen : List.length table = List.length ps).
  { unfold table. now rewrite length_map, length_seq. }
  assert (Hsel : selectbox (map name_of table) k = NaN).
  { rewrite selectbox_in_range by (rewrite length_map, Hlen; exact Hk).
    unfold table. rewrite loaded_name by exact Hk.
    apply convert_column_na with (tok := Name q); [|exact Hna].
    unfold column_tokens. rewrite nth_error_map, Hq. reflexivity. }
  unfold profile_setup, bind. rewrite Hload.
  assert (Hempty : df_empty {| columns := profile_columns; rows := table |} = false).
  { unfold df_empty. cbn [columns rows profile_columns].
    destruct table; [simpl in Hlen; lia|reflexivity]. }
  rewrite Hempty. cbn [negb]. cbv iota.
  unfold df_column, df_where_eq. cbn [columns rows].
  change (index_of "Name" profile_columns) with (Some 0%nat). cbv iota.
  change (fun r : list scalar => nth 0 r NaN) with name_of.
  cbn [lift ret]. cbv beta iota.
  rewrite Hsel.
  rewrite (filter_none (fun r => scalar_eqb cv (nth 0 r NaN) NaN) table)
    by (intros x; apply scalar_eqb_NaN).
  reflexivity.
Qed.

Definition unnamed_profile : Profile :=
  {| Name := ""; Industry := "Retail"; Company := "Shop"; Target_Audience := "Buyers" |}.

Definition store_with_unnamed : World :=
  {| session := Some initial_session;
     csv_file := Some (saved [profile_of_ada; unnamed_profile]);
     log := [] |}.

Lemma load_existing_unnamed_profile_raises_witness :
  profile_setup text_only LoadExistingProfile 1 store_with_unnamed
  = (Raised IndexError, store_with_unnamed).
Proof.
  apply (@load_existing_unnamed_profile_raises text_only store_with_unnamed
           [profile_of_ada; unnamed_profile] 1 unnamed_profile);
    reflexivity.
Defined.

(** ** Which part of the script does what

    The relation kept by an execution can be chosen for each kind of
    change separately: what is shown, what is sent to either service, what
    happens to the session and to the file.  Each handler needs only the
    changes it can make. *)

Definition is_completion (e : Event) : bool :=
  match e with HttpCompletion _ _ => true | _ => false end.

Definition is_resend (e : Event) : bool :=
  match e with HttpResendSend _ => true | _ => false end.

(** Events that only show something to the user. *)
Definition is_shown (e : Event) : bool :=
  negb (is_completion e) && negb (is_resend e).

Section Parts.

Variable R : World -> World -> Prop.

Hypothesis R_refl : forall w, R w w.
Hypothesis R_trans : forall a b c, R a b -> R b c -> R a c.
Hypothesis R_shown : forall e, is_shown e = true -> keeps R (emit e).

Ltac parts_tac :=
  repeat first
    [ apply (@keeps_ret R R_refl) | apply (@keeps_stop R R_refl)
    | apply (@keeps_rerun R R_refl) | apply (@keeps_raise R R_refl)
    | apply (@keeps_lift R R_refl) | apply (@keeps_get_session R R_refl)
    | apply (@keeps_load_profiles R R_refl)
    | apply R_shown; reflexivity
    | assumption
    | match goal with
      | H : forall x, keeps R (?f x) |- keeps R (?f _) => apply H
      | |- keeps R (when _ _) => apply (@keeps_when R R_refl)
      | |- keeps R (bind _ _) => apply (@keeps_bind R R_trans); [|intros ?]
      | |- keeps R (if ?b then _ else _) => destruct b
      | |- keeps R (match ?x with _ => _ end) => destruct x
      end ].

Lemma part_startup cfg : keeps R (startup cfg).
Proof. unfold startup. parts_tac. Qed.

Lemma part_init_session_state :
  keeps R (put_session initial_session) -> keeps R init_session_state.
Proof. intros H. now apply (@keeps_init_session_state R R_refl). Qed.

Lemma part_profile_setup cv choice selected_index :
  (forall d, keeps R (set_profile d)) ->
  keeps R (profile_setup cv choice selected_index).
Proof.
  intros Hp. unfold profile_setup. apply (@keeps_bind R R_trans).
  - destruct choice; parts_tac.
  - intros []; parts_tac.
Qed.

Lemma part_save_profile_button name industry company audience :
  (forall d, keeps R (set_profile d)) ->
  (forall p, keeps R (save_profile p)) ->
  keeps R (save_profile_button name industry company audience).
Proof. intros Hp Hs. unfold save_profile_button. parts_tac. Qed.

Lemma part_get_llm_response srv msgs :
  (forall model sent, keeps R (emit (HttpCompletion model sent))) ->
  keeps R (get_llm_response srv msgs).
Proof.
  intros Hc. unfold get_llm_response. apply (@keeps_bind R R_trans); [apply Hc|intros _].
  cbv zeta. parts_tac.
Qed.

Lemma part_generate_email_button srv prompt :
  (forall model sent, keeps R (emit (HttpCompletion model sent))) ->
  (forall m, keeps R (append_message m)) ->
  (forall b, keeps R (set_email_generated b)) ->
  keeps R (generate_email_button srv prompt).
Proof.
  intros Hc Ha Hf. unfold generate_email_button.
  apply (@keeps_bind R R_trans); [apply Ha|intros _].
  apply (@keeps_bind R R_trans); [apply (@keeps_get_session R R_refl)|intros s].
  apply (@keeps_bind R R_trans); [now apply part_get_llm_response|intros response].
  parts_tac.
Qed.

Lemma part_send_email cfg srv subject body recipient :
  (forall params, keeps R (emit (HttpResendSend params))) ->
  keeps R (send_email cfg srv subject body recipient).
Proof.
  intros Hr. unfold send_email.
  destruct (negb (RESEND_INSTALLED cfg) || negb (truthy (RESEND_API_KEY cfg)));
    cbv zeta; parts_tac.
  apply Hr.
Qed.

Lemma part_send_email_button cfg srv email_subject recipient_email :
  (forall params, keeps R (emit (HttpResendSend params))) ->
  keeps R (send_email_button cfg srv email_subject recipient_email).
Proof.
  intros Hr. unfold send_email_button.
  destruct (RESEND_INSTALLED cfg && truthy (RESEND_API_KEY cfg));
    [|apply R_shown; reflexivity].
  apply (@keeps_bind R R_trans); [apply (@keeps_get_session R R_refl)|intros s].
  apply (@keeps_bind R R_trans); [apply (@keeps_lift R R_refl)|intros body].
  apply (@keeps_bind R R_trans); [now apply part_send_email|intros email].
  parts_tac.
Qed.

(** Send Email when sending is not configured: the error, and no request. *)
Lemma part_send_email_button_unconfigured cfg srv email_subject recipient_email :
  RESEND_INSTALLED cfg && truthy (RESEND_API_KEY cfg) = false ->
  keeps R (send_email_button cfg srv email_subject recipient_email).
Proof.
  intros H. unfold send_email_button. rewrite H. apply R_shown. reflexivity.
Qed.

End Parts.

Lemma keeps_bind_mixed (R1 R2 R3 : World -> World -> Prop) {A B}
      (m : M A) (f : A -> M B) :
  (forall a b, R1 a b -> R3 a b) ->
  (forall a b c, R1 a b -> R2 b c -> R3 a c) ->
  keeps R1 m -> (forall x, keeps R2 (f x)) -> keeps R3 (bind m f).
Proof.
  intros Hsub Hcomp Hm Hf w. unfold bind. specialize (Hm w).
  destruct (m w) as [[a| | |e] w']; cbn [snd] in *; try now apply Hsub.
  eapply Hcomp; [eassumption|]. apply Hf.
Qed.

(** ** The profile file over an execution *)

Definition same_file (a b : World) : Prop := csv_file b = csv_file a.

(** The text of the profile file, empty when there is none. *)
Definition store_text (w : World) : string :=
  match csv_file w with Some text => text | None => "" end.

Lemma session_update_file (f : Session -> Session) w :
  csv_file (snd ((s <- get_session ;; put_session (f s)) w)) = csv_file w.
Proof. unfold bind, get_session, put_session. now destruct (session w). Qed.

Lemma same_file_refl w : same_file w w.
Proof. reflexivity. Qed.

Lemma same_file_trans a b c : same_file a b -> same_file b c -> same_file a c.
Proof. unfold same_file. congruence. Qed.

Lemma same_file_emit e : keeps same_file (emit e).
Proof. intros w. reflexivity. Qed.

Lemma same_file_append m : keeps same_file (append_message m).
Proof.
  intros w.
  apply (session_update_file
           (fun s => {| messages := (messages s ++ [m])%list;
                        email_generated := email_generated s;
                        profile := profile s |})).
Qed.

Lemma same_file_flag b : keeps same_file (set_email_generated b).
Proof.
  intros w.
  apply (session_update_file
           (fun s => {| messages := messages s; email_generated := b;
                        profile := profile s |})).
Qed.

Lemma same_file_profile d : keeps same_file (set_profile d).
Proof.
  intros w.
  apply (session_update_file
           (fun s => {| messages := messages s;
                        email_generated := email_generated s;
                        profile := d |})).
Qed.

Lemma same_file_put s : keeps same_file (put_session s).
Proof. intros w. reflexivity. Qed.

(** The profile the Save Profile button saves, line 124. *)
Definition form_profile (inp : Inputs) : Profile :=
  {| Name := name inp; Industry := industry inp; Company := company inp;
     Target_Audience := audience inp |}.

(** The file is as before, or grew by the line of the form's profile. *)
Definition saved_at_most (inp : Inputs) (a b : World) : Prop :=
  csv_file b = csv_file a
  \/ (save_profile_clicked inp = true
      /\ csv_file b = Some (store_text a ++ csv_line (form_profile inp))).

Lemma save_profile_button_file name industry company audience w :
  csv_file (snd (save_profile_button name industry company audience w))
  = Some (store_text w ++ csv_line {| Name := name; Industry := industry;
                                      Company := company;
                                      Target_Audience := audience |}).
Proof.
  unfold save_profile_button, bind, save_profile, set_profile, bind, get_session,
    put_session, store_text. cbn [session csv_file].
  destruct (session w); reflexivity.
Qed.

(** An execution of the script changes the profile file in one way only: it
    appends the one line of the profile in the form, and that only in an
    execution in which Save Profile was clicked.  Whatever was in the file
    stays at its head; no execution truncates, rewrites or deletes it. *)
Theorem script_file_effect cv cfg srv inp w :
  csv_file (snd (script cv cfg srv inp w)) = csv_file w
  \/ (save_profile_clicked inp = true
      /\ csv_file (snd (script cv cfg srv inp w))
         = Some (store_text w ++
                 csv_line {| Name := name inp; Industry := industry inp;
                             Company := company inp;
                             Target_Audience := audience inp |})).
Proof.
  assert (Hsub : forall a b, same_file a b -> saved_at_most inp a b)
    by (intros a b H; now left).
  assert (Hleft : forall a b c,
             same_file a b -> saved_at_most inp b c -> saved_at_most inp a c).
  { intros a b c Hab [Hbc|[Hc Hbc]]; [left; congruence|right].
    split; [exact Hc|]. unfold store_text in *. now rewrite <- Hab. }
  assert (Hright : forall a b c,
             saved_at_most inp a b -> same_file b c -> saved_at_most inp a c).
  { intros a b c [Hab|[Hc Hab]] Hbc; [left; congruence|right].
    split; [exact Hc|]. congruence. }
  change (saved_at_most inp w (snd (script cv cfg srv inp w))).
  revert w. change (keeps (saved_at_most inp) (script cv cfg srv inp)).
  unfold script.
  apply (@keeps_bind_mixed same_file (saved_at_most inp) (saved_at_most inp)
           _ _ _ _ Hsub Hleft);
    [apply (@part_startup same_file same_file_refl same_file_trans
              (fun e _ => same_file_emit e))|intros _].
  apply (@keeps_bind_mixed same_file (saved_at_most inp) (saved_at_most inp)
           _ _ _ _ Hsub Hleft);
    [apply (@keeps_init_session_state same_file same_file_refl
              (same_file_put initial_session))|intros _].
  apply (@keeps_bind_mixed same_file (saved_at_most inp) (saved_at_most inp)
           _ _ _ _ Hsub Hleft);
    [apply (@part_profile_setup same_file same_file_refl same_file_trans
              (fun e _ => same_file_emit e)); apply same_file_profile|intros _].
  cbv zeta.
  apply (@keeps_bind_mixed (saved_at_most inp) same_file (saved_at_most inp)
           _ _ _ _ (fun a b H => H) Hright).
  - intros w. destruct (save_profile_clicked inp) eqn:Hc; cbn [when].
    + right. split; [exact Hc|]. apply save_profile_button_file.
    + left. reflexivity.
  - intros _.
    apply (@keeps_bind same_file same_file_trans);
      [apply (@keeps_when same_file same_file_refl);
       apply (@part_generate_email_button same_file same_file_refl same_file_trans
                (fun e _ => same_file_emit e));
       [intros; apply same_file_emit|apply same_file_append|apply same_file_flag]
      |intros _].
    apply (@keeps_bind same_file same_file_trans);
      [apply (@keeps_get_session same_file same_file_refl)|intros s].
    apply (@keeps_bind same_file same_file_trans);
      [do 2 apply (@keeps_when same_file same_file_refl);
       apply (@part_send_email_button same_file same_file_refl same_file_trans
                (fun e _ => same_file_emit e));
       intros; apply same_file_emit
      |intros _].
    apply (@keeps_when same_file same_file_refl).
    apply (@keeps_start_over_button same_file). apply same_file_put.
Qed.

(** ** What an execution sends *)

(** The log grew by events that all satisfy [P]. *)
Definition logs_only (P : Event -> bool) (a b : World) : Prop :=
  exists events, log b = (log a ++ events)%list
                 /\ Forall (fun e => P e = true) events.

Lemma logs_only_refl P w : logs_only P w w.
Proof. exists []. split; [now rewrite app_nil_r|constructor]. Qed.

Lemma logs_only_trans P a b c :
  logs_only P a b -> logs_only P b c -> logs_only P a c.
Proof.
  intros [e1 [H1 F1]] [e2 [H2 F2]]. exists (e1 ++ e2)%list. split.
  - now rewrite H2, H1, app_assoc.
  - apply Forall_app. now split.
Qed.

Lemma logs_only_same_log P w w' : log w' = log w -> logs_only P w w'.
Proof. intros H. exists []. split; [now rewrite app_nil_r|constructor]. Qed.

Lemma logs_only_emit P e : P e = true -> keeps (logs_only P) (emit e).
Proof. intros H w. exists [e]. split; [reflexivity|]. now constructor. Qed.

Lemma logs_only_append P m : keeps (logs_only P) (append_message m).
Proof.
  intros w. apply logs_only_same_log.
  apply (session_update_log
           (fun s => {| messages := (messages s ++ [m])%list;
                        email_generated := email_generated s;
                        profile := profile s |})).
Qed.

Lemma logs_only_flag P b : keeps (logs_only P) (set_email_generated b).
Proof.
  intros w. apply logs_only_same_log.
  apply (session_update_log
           (fun s => {| messages := messages s; email_generated := b;
                        profile := profile s |})).
Qed.

Lemma logs_only_profile P d : keeps (logs_only P) (set_profile d).
Proof.
  intros w. apply logs_only_same_log.
  apply (session_update_log
           (fun s => {| messages := messages s;
                        email_generated := email_generated s;
                        profile := d |})).
Qed.

Lemma logs_only_put P s : keeps (logs_only P) (put_session s).
Proof. intros w. now apply logs_only_same_log. Qed.

Lemma logs_only_save P p : keeps (logs_only P) (save_profile p).
Proof. intros w. now apply logs_only_same_log. Qed.

Section Sending.

Variable P : Event -> bool.
Hypothesis P_shown : forall e, is_shown e = true -> P e = true.

Let shown_ok : forall e, is_shown e = true -> keeps (logs_only P) (emit e) :=
  fun e H => logs_only_emit P e (P_shown e H).

(** The parts of the script before the Generate Email button. *)
Lemma logs_only_before_generate cv cfg inp (rest : M unit) :
  keeps (logs_only P) rest ->
  keeps (logs_only P)
    (startup cfg ;;;
     init_session_state ;;;
     profile_setup cv (profile_choice inp) (selected_index inp) ;;;
     when (save_profile_clicked inp)
          (save_profile_button (name inp) (industry inp) (company inp)
                               (audience inp)) ;;;
     rest).
Proof.
  intros Hrest.
  apply (@keeps_bind _ (@logs_only_trans P));
    [apply (@part_startup _ (logs_only_refl P) (@logs_only_trans P) shown_ok)
    |intros _].
  apply (@keeps_bind _ (@logs_only_trans P));
    [apply (@keeps_init_session_state _ (logs_only_refl P)
              (logs_only_put P initial_session))|intros _].
  apply (@keeps_bind _ (@logs_only_trans P));
    [apply (@part_profile_setup _ (logs_only_refl P) (@logs_only_trans P) shown_ok);
     apply logs_only_profile|intros _].
  apply (@keeps_bind _ (@logs_only_trans P)); [|intros _; exact Hrest].
  apply (@keeps_when _ (logs_only_refl P)).
  apply (@part_save_profile_button _ (@logs_only_trans P) shown_ok);
    [apply logs_only_profile|apply logs_only_save].
Qed.

Lemma logs_only_generate srv prompt :
  (forall model sent, P (HttpCompletion model sent) = true) ->
  keeps (logs_only P) (generate_email_button srv prompt).
Proof.
  intros Hc.
  apply (@part_generate_email_button _ (logs_only_refl P) (@logs_only_trans P)
           shown_ok).
  - intros model sent. apply logs_only_emit, Hc.
  - apply logs_only_append.
  - apply logs_only_flag.
Qed.

Lemma logs_only_send cfg srv email_subject recipient_email :
  (forall params, P (HttpResendSend params) = true) ->
  keeps (logs_only P) (send_email_button cfg srv email_subject recipient_email).
Proof.
  intros Hr.
  apply (@part_send_email_button _ (logs_only_refl P) (@logs_only_trans P) shown_ok).
  intros params. apply logs_only_emit, Hr.
Qed.

Lemma logs_only_start_over : keeps (logs_only P) start_over_button.
Proof. apply keeps_start_over_button, logs_only_put. Qed.

End Sending.

(** An execution in which Generate Email was not clicked sends nothing to
    the completion endpoint. *)
Theorem script_no_completion_without_generate cv cfg srv inp w :
  generate_clicked inp = false ->
  exists events,
    log (snd (script cv cfg srv inp w)) = (log w ++ events)%list
    /\ Forall (fun e => match e with HttpCompletion _ _ => False | _ => True end)
              events.
Proof.
  intros Hg.
  assert (H : logs_only (fun e => negb (is_completion e)) w
                (snd (script cv cfg srv inp w))).
  { revert w. change (keeps (logs_only (fun e => negb (is_completion e)))
                        (script cv cfg srv inp)).
    assert (Hs : forall e, is_shown e = true -> negb (is_completion e) = true)
      by (intros e He; unfold is_shown in He; now apply andb_true_iff in He).
    unfold script. cbv zeta. rewrite Hg. cbn [when].
    apply (@logs_only_before_generate _ Hs).
    apply (@keeps_bind _ (@logs_only_trans _));
      [apply (@keeps_ret _ (logs_only_refl _))|intros _].
    apply (@keeps_bind _ (@logs_only_trans _));
      [apply (@keeps_get_session _ (logs_only_refl _))|intros s].
    apply (@keeps_bind _ (@logs_only_trans _));
      [do 2 apply (@keeps_when _ (logs_only_refl _));
       now apply (@logs_only_send _ Hs)|intros _].
    apply (@keeps_when _ (logs_only_refl _)). apply (@logs_only_start_over _). }
  destruct H as [events [Hl Hf]]. exists events. split; [exact Hl|].
  eapply Forall_impl; [|exact Hf]. intros [] He; try exact I. discriminate He.
Qed.

Lemma script_no_completion_without_generate_witness :
  exists events,
    log (snd (script text_only config_with_resend hello_service
                (with_recipient_email
                   {| profile_choice := CreateNewProfile; selected_index := 0;
                      name := "Ada"; industry := "Retail"; company := "Shop";
                      audience := "Buyers"; save_profile_clicked := true;
                      recipient_name := "Bob"; recipient_email := "";
                      email_purpose := "Offer"; tone := Neutral; length := Medium;
                      key_points := "Discount"; generate_clicked := false;
                      email_subject := "Offer - Bob"; send_clicked := false;
                      start_over_clicked := false |} "bob@example.org")
                fresh_world))
    = ([] ++ events)%list
    /\ Forall (fun e => match e with HttpCompletion _ _ => False | _ => True end)
              events.
Proof.
  apply (@script_no_completion_without_generate text_only config_with_resend
           hello_service _ fresh_world).
  reflexivity.
Defined.

Lemma shown_not_resend e : is_shown e = true -> negb (is_resend e) = true.
Proof. unfold is_shown. intros H. now apply andb_true_iff in H. Qed.

Lemma no_resend_events events :
  Forall (fun e => negb (is_resend e) = true) events ->
  Forall (fun e => match e with HttpResendSend _ => False | _ => True end) events.
Proof.
  intros H. eapply Forall_impl; [|exact H]. intros [] He; try exact I.
  discriminate He.
Qed.

(** An execution hands nothing to the e-mail provider unless Send Email
    was clicked and sending is configured (library installed, key set). *)
Theorem script_no_send_unless_enabled cv cfg srv inp w :
  send_clicked inp = false
  \/ RESEND_INSTALLED cfg && truthy (RESEND_API_KEY cfg) = false ->
  exists events,
    log (snd (script cv cfg srv inp w)) = (log w ++ events)%list
    /\ Forall (fun e => match e with HttpResendSend _ => False | _ => True end)
              events.
Proof.
  intros Hoff.
  assert (H : logs_only (fun e => negb (is_resend e)) w
                (snd (script cv cfg srv inp w))).
  { revert w. change (keeps (logs_only (fun e => negb (is_resend e)))
                        (script cv cfg srv inp)).
    unfold script. cbv zeta.
    apply (@logs_only_before_generate _ shown_not_resend).
    apply (@keeps_bind _ (@logs_only_trans _));
      [apply (@keeps_when _ (logs_only_refl _));
       now apply (@logs_only_generate _ shown_not_resend)|intros _].
    apply (@keeps_bind _ (@logs_only_trans _));
      [apply (@keeps_get_session _ (logs_only_refl _))|intros s].
    apply (@keeps_bind _ (@logs_only_trans _));
      [|intros _; apply (@keeps_when _ (logs_only_refl _));
        apply (@logs_only_start_over _)].
    apply (@keeps_when _ (logs_only_refl _)).
    destruct Hoff as [Hc|Hc].
    - rewrite Hc. apply (@keeps_ret _ (logs_only_refl _)).
    - apply (@keeps_when _ (logs_only_refl _)).
      apply (@part_send_email_button_unconfigured _
               (fun e He => logs_only_emit _ e (shown_not_resend e He))).
      exact Hc. }
  destruct H as [events [Hl Hf]]. exists events. split; [exact Hl|].
  now apply no_resend_events.
Qed.

Lemma script_no_send_unless_enabled_witness :
  exists events,
    log (snd (script text_only config_without_resend_key hello_service
                (with_recipient_email generate_inputs "bob@example.org")
                generated_world))
    = ([] ++ events)%list
    /\ Forall (fun e => match e with HttpResendSend _ => False | _ => True end)
              events.
Proof.
  apply (@script_no_send_unless_enabled text_only config_without_resend_key
           hello_service _ generated_world).
  right. reflexivity.
Defined.

(** The generated-flag is off: no e-mail was generated in this session. *)
Definition flag_off (w : World) : Prop :=
  forall s, session w = Some s -> email_generated s = false.

(** From a world with the flag off: nothing is handed to the e-mail
    provider and the flag is still off. *)
Definition unsent (a b : World) : Prop :=
  flag_off a -> logs_only (fun e => negb (is_resend e)) a b /\ flag_off b.

Lemma unsent_refl w : unsent w w.
Proof. intros H. split; [apply logs_only_refl|exact H]. Qed.

Lemma unsent_trans a b c : unsent a b -> unsent b c -> unsent a c.
Proof.
  intros Hab Hbc Ha. destruct (Hab Ha) as [L1 Hb]. destruct (Hbc Hb) as [L2 Hc].
  split; [eapply logs_only_trans; eassumption|exact Hc].
Qed.

Lemma unsent_shown e : is_shown e = true -> keeps unsent (emit e).
Proof.
  intros He w Hw. split; [|exact Hw].
  apply logs_only_emit. now apply shown_not_resend.
Qed.

Lemma unsent_profile d : keeps unsent (set_profile d).
Proof.
  intros w Hw. split; [apply logs_only_profile|].
  unfold set_profile, bind, get_session, put_session.
  destruct (session w) as [s|] eqn:E; cbn [snd]; [|exact Hw].
  intros s' Hs'. cbn in Hs'. injection Hs' as <-. cbn. now apply Hw.
Qed.

Lemma unsent_reset : keeps unsent (put_session initial_session).
Proof.
  intros w _. split; [apply logs_only_put|].
  intros s Hs. cbn in Hs. now injection Hs as <-.
Qed.

Lemma unsent_save p : keeps unsent (save_profile p).
Proof. intros w Hw. split; [apply logs_only_save|exact Hw]. Qed.

Lemma unsent_after_generate cfg srv inp :
  keeps unsent
    (s <- get_session ;;
     when (email_generated s)
          (when (send_clicked inp)
                (send_email_button cfg srv (email_subject inp) (recipient_email inp))) ;;;
     when (start_over_clicked inp) start_over_button).
Proof.
  intros w Hoff. unfold bind, get_session.
  destruct (session w) as [s|] eqn:E.
  - rewrite (Hoff s E). cbn [when ret].
    destruct (start_over_clicked inp); cbn [when ret snd].
    + exact (@keeps_start_over_button unsent unsent_reset w Hoff).
    + now apply unsent_refl.
  - now apply unsent_refl.
Qed.

(** In a session in which no e-mail was generated yet, an execution without
    a click on Generate Email hands nothing to the e-mail provider, whatever
    else was clicked, and leaves the generated-flag off: Send Email works
    only after a generation. *)
Theorem script_no_send_before_generation cv cfg srv inp w :
  (forall s, session w = Some s -> email_generated s = false) ->
  generate_clicked inp = false ->
  (exists events,
     log (snd (script cv cfg srv inp w)) = (log w ++ events)%list
     /\ Forall (fun e => match e with HttpResendSend _ => False | _ => True end)
               events)
  /\ forall s, session (snd (script cv cfg srv inp w)) = Some s ->
               email_generated s = false.
Proof.
  intros Hw Hg.
  assert (H : unsent w (snd (script cv cfg srv inp w))).
  { clear Hw. revert w. change (keeps unsent (script cv cfg srv inp)).
    unfold script. cbv zeta. rewrite Hg. cbn [when].
    apply (@keeps_bind _ unsent_trans);
      [apply (@part_startup _ unsent_refl unsent_trans unsent_shown)|intros _].
    apply (@keeps_bind _ unsent_trans);
      [apply (@keeps_init_session_state _ unsent_refl unsent_reset)|intros _].
    apply (@keeps_bind _ unsent_trans);
      [apply (@part_profile_setup _ unsent_refl unsent_trans unsent_shown);
       apply unsent_profile|intros _].
    apply (@keeps_bind _ unsent_trans);
      [apply (@keeps_when _ unsent_refl);
       apply (@part_save_profile_button _ unsent_trans unsent_shown);
       [apply unsent_profile|apply unsent_save]|intros _].
    apply (@keeps_bind _ unsent_trans);
      [apply (@keeps_ret _ unsent_refl)|intros _].
    apply unsent_after_generate. }
  destruct (H Hw) as [[events [Hl Hf]] Hoff].
  split; [|exact Hoff]. exists events. split; [exact Hl|].
  now apply no_resend_events.
Qed.

Definition send_inputs : Inputs :=
  {| profile_choice := CreateNewProfile; selected_index := 0;
     name := "Ada"; industry := "Retail"; company := "Shop";
     audience := "Buyers"; save_profile_clicked := false;
     recipient_name := "Bob"; recipient_email := "bob@example.org";
     email_purpose := "Offer"; tone := Neutral; length := Medium;
     key_points := "Discount"; generate_clicked := false;
     email_subject := "Offer - Bob"; send_clicked := true;
     start_over_clicked := false |}.

Lemma script_no_send_before_generation_witness :
  (exists events,
     log (snd (script text_only config_with_resend accepting_service send_inputs
                 started_world))
     = ([] ++ events)%list
     /\ Forall (fun e => match e with HttpResendSend _ => False | _ => True end)
               events)
  /\ forall s, session (snd (script text_only config_with_resend accepting_service
                               send_inputs started_world)) = Some s ->
               email_generated s = false.
Proof.
  apply (@script_no_send_before_generation text_only config_with_resend
           accepting_service send_inputs started_world).
  - intros s Hs. injection Hs as <-. reflexivity.
  - reflexivity.
Defined.

(** ** Start Over within an execution *)

(** A part of the script that never asks for a rerun. *)
Definition no_rerun {A} (m : M A) : Prop :=
  forall w, is_Rerun (fst (m w)) = false.

Lemma no_rerun_bind {A B} (m : M A) (f : A -> M B) :
  no_rerun m -> (forall a, no_rerun (f a)) -> no_rerun (bind m f).
Proof.
  intros Hm Hf w. unfold bind. specialize (Hm w).
  destruct (m w) as [[a| | |e] w']; cbn in *; try assumption || reflexivity.
  apply Hf.
Qed.

Lemma no_rerun_when b (m : M unit) : no_rerun m -> no_rerun (when b m).
Proof. intros H. destruct b; [exact H|intros w; reflexivity]. Qed.

Lemma no_rerun_lift {A} (r : exn + A) : no_rerun (lift r).
Proof. destruct r; intros w; reflexivity. Qed.

Lemma no_rerun_get_session : no_rerun get_session.
Proof. intros w. unfold get_session. now destruct (session w). Qed.

Lemma no_rerun_session_update (f : Session -> Session) :
  no_rerun (s <- get_session ;; put_session (f s)).
Proof. intros w. unfold bind, get_session. now destruct (session w). Qed.

Lemma no_rerun_load_profiles cv : no_rerun (load_profiles cv).
Proof.
  intros w. unfold load_profiles. destruct (csv_file w); [|reflexivity].
  now destruct (read_csv _ _ _).
Qed.

Ltac no_rerun_tac :=
  repeat first
    [ apply no_rerun_lift | apply no_rerun_get_session
    | apply no_rerun_load_profiles
    | apply no_rerun_session_update
    | match goal with
      | |- no_rerun (when _ _) => apply no_rerun_when
      | |- no_rerun (bind _ _) => apply no_rerun_bind; [|intros ?]
      | |- no_rerun (if ?b then _ else _) => destruct b
      | |- no_rerun (ret _) => intros ?; reflexivity
      | |- no_rerun (emit _) => intros ?; reflexivity
      | |- no_rerun st_stop => intros ?; reflexivity
      | |- no_rerun (raise _) => intros ?; reflexivity
      | |- no_rerun (save_profile _) => intros ?; reflexivity
      end ].

Lemma no_rerun_startup cfg : no_rerun (startup cfg).
Proof. unfold startup. no_rerun_tac. Qed.

Lemma no_rerun_init_session_state : no_rerun init_session_state.
Proof. intros w. unfold init_session_state. now destruct (session w). Qed.

Lemma no_rerun_profile_setup cv choice selected_index :
  no_rerun (profile_setup cv choice selected_index).
Proof.
  unfold profile_setup. apply no_rerun_bind.
  - destruct choice; no_rerun_tac.
  - intros []; no_rerun_tac.
Qed.

Lemma no_rerun_save_profile_button name industry company audience :
  no_rerun (save_profile_button name industry company audience).
Proof. unfold save_profile_button. no_rerun_tac. Qed.

Lemma no_rerun_get_llm_response srv msgs : no_rerun (get_llm_response srv msgs).
Proof.
  intros w. rewrite get_llm_response_outcome.
  destruct (_ =? _)%Z; [|reflexivity].
  destruct (json _); [|reflexivity]. now destruct (completion_text _).
Qed.

Lemma no_rerun_generate_email_button srv prompt :
  no_rerun (generate_email_button srv prompt).
Proof.
  unfold generate_email_button.
  apply no_rerun_bind; [apply no_rerun_session_update|intros _].
  apply no_rerun_bind; [apply no_rerun_get_session|intros s].
  apply no_rerun_bind; [apply no_rerun_get_llm_response|intros response].
  apply no_rerun_bind; [apply no_rerun_session_update|intros _].
  apply no_rerun_bind; [apply no_rerun_session_update|intros _].
  intros w. reflexivity.
Qed.

Lemma no_rerun_send_email_button cfg srv email_subject recipient_email :
  no_rerun (send_email_button cfg srv email_subject recipient_email).
Proof.
  unfold send_email_button.
  destruct (RESEND_INSTALLED cfg && truthy (RESEND_API_KEY cfg));
    [|intros w; reflexivity].
  apply no_rerun_bind; [apply no_rerun_get_session|intros s].
  apply no_rerun_bind; [apply no_rerun_lift|intros body].
  apply no_rerun_bind.
  - unfold send_email.
    destruct (negb (RESEND_INSTALLED cfg) || negb (truthy (RESEND_API_KEY cfg)));
      cbv zeta; no_rerun_tac.
    destruct (resend_send srv _); no_rerun_tac.
  - intros email. no_rerun_tac.
Qed.

Lemma bind_rerun {A B} (m : M A) (f : A -> M B) w :
  no_rerun m ->
  fst (bind m f w) = Rerun ->
  exists a, fst (m w) = Done a /\ bind m f w = f a (snd (m w)).
Proof.
  intros Hm. unfold bind. specialize (Hm w).
  destruct (m w) as [[a| | |e] w']; cbn in *; try discriminate.
  intros _. now exists a.
Qed.

(** An execution of the script asks for a rerun only through Start Over:
    if it ends in [st.rerun()], Start Over was clicked and the session is
    the initial one, with the single system message, the generated-flag
    off and the empty profile. *)
Theorem script_rerun_means_reset cv cfg srv inp w :
  fst (script cv cfg srv inp w) = Rerun ->
  start_over_clicked inp = true
  /\ session (snd (script cv cfg srv inp w)) = Some initial_session.
Proof.
  unfold script. cbv zeta. intros H.
  destruct (bind_rerun _ _ (no_rerun_startup cfg) H) as [a1 [_ E1]].
  rewrite E1 in *. clear E1.
  destruct (bind_rerun _ _ no_rerun_init_session_state H) as [a2 [_ E2]].
  rewrite E2 in *. clear E2.
  destruct (bind_rerun _ _ (no_rerun_profile_setup cv _ _) H) as [a3 [_ E3]].
  rewrite E3 in *. clear E3.
  destruct (bind_rerun _ _
              (no_rerun_when _ (no_rerun_save_profile_button _ _ _ _)) H)
    as [a4 [_ E4]].
  rewrite E4 in *. clear E4.
  destruct (bind_rerun _ _
              (no_rerun_when _ (no_rerun_generate_email_button srv _)) H)
    as [a5 [_ E5]].
  rewrite E5 in *. clear E5.
  destruct (bind_rerun _ _ no_rerun_get_session H) as [s [_ E6]].
  rewrite E6 in *. clear E6.
  destruct (bind_rerun _ _
              (no_rerun_when _
                 (no_rerun_when _ (no_rerun_send_email_button cfg srv _ _))) H)
    as [a7 [_ E7]].
  rewrite E7 in *. clear E7.
  destruct (start_over_clicked inp); [|discriminate H].
  split; reflexivity.
Qed.

Definition start_over_inputs : Inputs :=
  {| profile_choice := CreateNewProfile; selected_index := 0;
     name := ""; industry := ""; company := ""; audience := "";
     save_profile_clicked := false;
     recipient_name := ""; recipient_email := ""; email_purpose := "";
     tone := Neutral; length := Medium; key_points := "";
     generate_clicked := false; email_subject := " - "; send_clicked := false;
     start_over_clicked := true |}.

Lemma script_rerun_means_reset_witness :
  start_over_clicked start_over_inputs = true
  /\ session (snd (script text_only config_with_resend hello_service
                     start_over_inputs generated_world))
     = Some initial_session.
Proof.
  apply (@script_rerun_means_reset text_only config_with_resend hello_service
           start_over_inputs generated_world).
  reflexivity.
Defined.

(** ** Saving a profile and loading it again *)






Definition profile_of_bob : Profile :=
  {| Name := "Bob"; Industry := "Travel"; Company := "Bobco";
     Target_Audience := "Tourists" |}.

Definition store_with_bob : World :=
  {| session := Some initial_session;
     csv_file := Some (saved [profile_of_bob]);
     log := [] |}.


(** ** The conversation history *)

(** Lines 183-188: the lines the history expander writes, one for each
    message after the first that is the assistant's or the user's. *)
Inductive HistoryLine : Type :=
| HistoryAI (content : pyval)
| HistoryYou (content : pyval).

Definition conversation_history (messages : list Message) : list HistoryLine :=
  flat_map
    (fun message =>
       if String.eqb (role message) "assistant" then [HistoryAI (content message)]
       else if String.eqb (role message) "user" then [HistoryYou (content message)]
       else [])
    (tl messages).

(** Who a history line names and what it shows. *)
Definition spoken (l : HistoryLine) : string * pyval :=
  match l with
  | HistoryAI c => ("assistant", c)
  | HistoryYou c => ("user", c)
  end.

Lemma history_of_chat rest :
  Forall chat_role rest ->
  map spoken
      (flat_map
         (fun message =>
            if String.eqb (role message) "assistant"
            then [HistoryAI (content message)]
            else if String.eqb (role message) "user"
                 then [HistoryYou (content message)]
                 else [])
         rest)
  = map (fun m => (role m, content m)) rest.
Proof.
  induction 1 as [|m rest Hm _ IH]; [reflexivity|].
  cbn [flat_map]. rewrite map_app, IH. cbn [map].
  destruct m as [r c].
  destruct Hm as [Hm|Hm]; cbn [role] in Hm; subst r; reflexivity.
Qed.

Lemma reachable_session_ok cv w : reachable cv w -> session_ok w.
Proof.
  induction 1 as [w H|cfg srv inp w _ IH].
  - intros s Hs. congruence.
  - now apply script_keeps_session_ok.
Qed.

(** In every reachable session the history shows every message of the
    conversation except the first, the system message: one line per
    message, in order, labelled by its role and showing its content.  No
    message is skipped and the system prompt is never shown. *)
Theorem conversation_history_is_complete cv w s :
  reachable cv w ->
  session w = Some s ->
  map spoken (conversation_history (messages s))
  = map (fun m => (role m, content m)) (tl (messages s))
  /\ List.length (conversation_history (messages s))
     = (List.length (messages s) - 1)%nat.
Proof.
  intros Hr Hs. destruct (@reachable_session_ok cv w Hr s Hs) as [rest [Hm Hrest]].
  assert (H : map spoken (conversation_history (messages s))
              = map (fun m => (role m, content m)) (tl (messages s))).
  { rewrite Hm. unfold conversation_history. cbn [tl].
    now apply history_of_chat. }
  split; [exact H|].
  apply (f_equal (@List.length _)) in H. rewrite !length_map in H. rewrite H, Hm.
  cbn. lia.
Qed.

Lemma conversation_history_is_complete_witness :
  map spoken (conversation_history (messages session_after_first_generate))
  = map (fun m => (role m, content m)) (tl (messages session_after_first_generate))
  /\ List.length (conversation_history (messages session_after_first_generate))
     = (List.length (messages session_after_first_generate) - 1)%nat.
Proof.
  apply (@conversation_history_is_complete text_only after_first_generate
           session_after_first_generate).
  - apply reachable_run, reachable_start. reflexivity.
  - vm_compute. reflexivity.
Defined.

(** ** The script, part by part *)

Section ScriptParts.

Variable R : World -> World -> Prop.
Variable cv : Converters.
Variable cfg : Config.
Variable srv : Services.
Variable inp : Inputs.

Hypothesis R_refl : forall w, R w w.
Hypothesis R_trans : forall a b c, R a b -> R b c -> R a c.
Hypothesis R_shown : forall e, is_shown e = true -> keeps R (emit e).
Hypothesis R_resend : forall params, keeps R (emit (HttpResendSend params)).
Hypothesis R_profile : forall d, keeps R (set_profile d).
Hypothesis R_save : forall p, keeps R (save_profile p).
Hypothesis R_init : keeps R init_session_state.
Hypothesis R_generate :
  forall prompt,
    keeps R (when (generate_clicked inp) (generate_email_button srv prompt)).
Hypothesis R_start_over :
  keeps R (when (start_over_clicked inp) start_over_button).

(** A relation kept by the start-up part, by the profile part, by the
    buttons as far as they were clicked, is kept by the execution. *)
Lemma keeps_script_parts : keeps R (script cv cfg srv inp).
Proof.
  unfold script. cbv zeta.
  apply (@keeps_bind R R_trans);
    [apply (@part_startup R R_refl R_trans R_shown)|intros _].
  apply (@keeps_bind R R_trans); [exact R_init|intros _].
  apply (@keeps_bind R R_trans);
    [apply (@part_profile_setup R R_refl R_trans R_shown); exact R_profile
    |intros _].
  apply (@keeps_bind R R_trans);
    [apply (@keeps_when R R_refl);
     apply (@part_save_profile_button R R_trans R_shown);
     [exact R_profile|exact R_save]
    |intros _].
  apply (@keeps_bind R R_trans); [apply R_generate|intros _].
  apply (@keeps_bind R R_trans);
    [apply (@keeps_get_session R R_refl)|intros s].
  apply (@keeps_bind R R_trans); [|intros _; exact R_start_over].
  do 2 apply (@keeps_when R R_refl).
  apply (@part_send_email_button R R_refl R_trans R_shown). exact R_resend.
Qed.

End ScriptParts.

(** ** What changes the conversation *)

(** The session is there as before, with the same conversation and the
    same generated-flag. *)
Definition same_conversation (a b : World) : Prop :=
  forall s, session a = Some s ->
    exists s', session b = Some s'
               /\ messages s' = messages s
               /\ email_generated s' = email_generated s.

Lemma same_conversation_refl w : same_conversation w w.
Proof. intros s Hs. now exists s. Qed.

Lemma same_conversation_trans a b c :
  same_conversation a b -> same_conversation b c -> same_conversation a c.
Proof.
  intros Hab Hbc s Hs. destruct (Hab s Hs) as [s1 [H1 [M1 F1]]].
  destruct (Hbc s1 H1) as [s2 [H2 [M2 F2]]]. exists s2.
  repeat split; congruence.
Qed.

Lemma same_conversation_same_session w w' :
  session w' = session w -> same_conversation w w'.
Proof. intros H s Hs. exists s. rewrite H. auto. Qed.

Lemma same_conversation_profile d : keeps same_conversation (set_profile d).
Proof.
  intros w s Hs. unfold set_profile, bind, get_session, put_session.
  rewrite Hs. cbn. eexists. split; [reflexivity|]. split; reflexivity.
Qed.

(** Only Generate Email and Start Over change the conversation: an
    execution in which neither was clicked leaves the messages and the
    generated-flag of an existing session as they were, whatever else was
    clicked and however the execution ends. *)
Theorem script_conversation_frame cv cfg srv inp w s :
  generate_clicked inp = false ->
  start_over_clicked inp = false ->
  session w = Some s ->
  exists s',
    session (snd (script cv cfg srv inp w)) = Some s'
    /\ messages s' = messages s
    /\ email_generated s' = email_generated s.
Proof.
  intros Hg Ho Hs.
  apply (@keeps_script_parts same_conversation cv cfg srv inp
           same_conversation_refl same_conversation_trans); try exact Hs.
  - intros e _ w0. now apply same_conversation_same_session.
  - intros params w0. now apply same_conversation_same_session.
  - apply same_conversation_profile.
  - intros p w0. now apply same_conversation_same_session.
  - intros w0 s0 Hs0. unfold init_session_state. rewrite Hs0. now exists s0.
  - intros prompt. rewrite Hg. intros w0. apply same_conversation_refl.
  - rewrite Ho. intros w0. apply same_conversation_refl.
Qed.

Lemma script_conversation_frame_witness :
  exists s',
    session (snd (script text_only config_with_resend accepting_service send_inputs
                    generated_world)) = Some s'
    /\ messages s' = messages generated_session
    /\ email_generated s' = email_generated generated_session.
Proof.
  apply (@script_conversation_frame text_only config_with_resend accepting_service
           send_inputs generated_world generated_session);
    reflexivity.
Defined.

(** ** The generated-flag and the assistant's messages *)

(** If the generated-flag is on, the conversation holds a message of the
    assistant. *)
Definition flag_backed (w : World) : Prop :=
  forall s, session w = Some s -> email_generated s = true ->
    exists m, In m (messages s) /\ role m = "assistant".

Definition keeps_flag_backed (a b : World) : Prop :=
  flag_backed a -> flag_backed b.

Lemma keeps_flag_backed_same_session w w' :
  session w' = session w -> keeps_flag_backed w w'.
Proof. intros H Hw s Hs. apply Hw. now rewrite <- H. Qed.

Lemma flag_backed_profile d : keeps keeps_flag_backed (set_profile d).
Proof.
  intros w Hw s' Hs'. unfold set_profile, bind, get_session, put_session in Hs'.
  destruct (session w) as [s|] eqn:E; cbn in Hs'; [|congruence].
  injection Hs' as <-. cbn. now apply Hw.
Qed.

Lemma flag_backed_reset : keeps keeps_flag_backed (put_session initial_session).
Proof. intros w _ s Hs. cbn in Hs. injection Hs as <-. discriminate. Qed.

Lemma flag_backed_generate srv prompt :
  keeps keeps_flag_backed (generate_email_button srv prompt).
Proof.
  intros w Hw. destruct (session w) as [s|] eqn:Hs.
  - destruct (@generate_email_button_cases srv prompt w s Hs)
      as (o & w' & s' & Hrun & Hs' & _ & _ & Hcases).
    rewrite Hrun. cbn [snd]. intros s0 Hs0 Hflag.
    rewrite Hs' in Hs0. injection Hs0 as <-.
    destruct Hcases as [[text (_ & Hm & _)]|(_ & Hm & Hf)]; rewrite Hm.
    + exists {| role := "assistant"; content := text |}. split; [|reflexivity].
      apply in_or_app. right. right. now left.
    + rewrite Hf in Hflag. destruct (Hw s Hs Hflag) as [m [Hin Hr]].
      exists m. split; [|exact Hr]. apply in_or_app. now left.
  - unfold generate_email_button, bind at 1, append_message, bind, get_session.
    rewrite Hs. cbn [snd]. exact Hw.
Qed.

(** In every reachable session whose generated-flag is on, the
    conversation holds a message of the assistant: the flag is raised only
    after an answer was appended, and Start Over lowers it. *)
Theorem generated_flag_has_assistant_message cv w s :
  reachable cv w ->
  session w = Some s ->
  email_generated s = true ->
  exists m, In m (messages s) /\ role m = "assistant".
Proof.
  intros Hr. revert s.
  change (flag_backed w).
  induction Hr as [w H|cfg srv inp w _ IH].
  - intros s Hs. congruence.
  - revert IH.
    apply (@keeps_script_parts keeps_flag_backed cv cfg srv inp).
    + intros w0 H. exact H.
    + intros a b c Hab Hbc H. exact (Hbc (Hab H)).
    + intros e _ w0. now apply keeps_flag_backed_same_session.
    + intros params w0. now apply keeps_flag_backed_same_session.
    + apply flag_backed_profile.
    + intros p w0. now apply keeps_flag_backed_same_session.
    + intros w0. unfold init_session_state.
      destruct (session w0) eqn:E; [intros H; exact H|apply flag_backed_reset].
    + intros prompt. destruct (generate_clicked inp); cbn [when];
        [apply flag_backed_generate|intros w0 H; exact H].
    + destruct (start_over_clicked inp); cbn [when]; [|intros w0 H; exact H].
      apply keeps_start_over_button, flag_backed_reset.
Qed.

Lemma generated_flag_has_assistant_message_witness :
  exists m, In m (messages session_after_first_generate) /\ role m = "assistant".
Proof.
  apply (@generated_flag_has_assistant_message text_only after_first_generate
           session_after_first_generate).
  - apply reachable_run, reachable_start. reflexivity.
  - vm_compute. reflexivity.
  - vm_compute. reflexivity.
Defined.

(** ** What the form starts with after Load Existing Profile *)

(** Lines 118-121: [st.session_state.profile.get(key, "")], the value an
    input of the profile form is given to start with. *)
Fixpoint profile_get (d : profile_dict) (key : string) : scalar :=
  match d with
  | [] => Str ""
  | (k, v) :: rest => if String.eqb k key then v else profile_get rest key
  end.



Definition profile_of_cy : Profile :=
  {| Name := "Cy"; Industry := "Retail"; Company := "";
     Target_Audience := "Buyers" |}.


Example company_input_starts_with_NaN :
  option_map (fun s => profile_get (profile s) "Company")
    (session (snd (profile_setup text_only LoadExistingProfile 1
                     (snd (save_profile profile_of_cy store_with_bob)))))
  = Some NaN.
Proof. vm_compute. reflexivity. Qed.
